(** * Memory monitor for the ATmega328P: model and verified properties

    A shallow embedding of [src/memory_monitor.cpp] (with the constants of
    [include/memory_monitor.h]).  The firmware keeps all of its state in
    file-level statics and hardware registers, so the model threads one
    [state] record through every function.

    Target facts the model relies on:
    - avr-gcc: [int] and pointers are 16 bits wide, so every [uint16_t]
      expression is evaluated modulo 2^16 and never promoted to a wider
      type; [uint8_t] values are 8 bits.
    - ATmega328P: [RAMEND = 0x08FF]; bit 7 of [SREG] is the global
      interrupt enable flag; [cli] clears it. *)

From Stdlib Require Import ZArith QArith Qminmax Lia Bool.
From Stdlib Require Ascii String.
From stdpp Require Import base list.

Open Scope Z_scope.

(** ** Machine integers *)

Definition to_u8 (x : Z) : Z := x mod 256.
Definition to_u16 (x : Z) : Z := x mod 65536.
Definition add16 (x y : Z) : Z := to_u16 (x + y).
Definition sub16 (x y : Z) : Z := to_u16 (x - y).

Definition is_u8 (x : Z) : Prop := 0 <= x < 256.
Definition is_u16 (x : Z) : Prop := 0 <= x < 65536.

(** ** Configuration constants ([memory_monitor.h], [avr/io.h]) *)

Definition MAX_HEAP_ALLOCATIONS : nat := 32.
Definition STACK_SENTINEL : Z := 0xAA.
Definition COLLISION_SAFETY_MARGIN : Z := 128.
Definition RAMEND : Z := 0x08FF.
Definition NULL : Z := 0.

(** ** Data model *)

Record AllocationEntry := mkEntry {
  ptr : Z;        (* void*: a 16-bit address, [NULL] is 0 *)
  size : Z;       (* uint16_t *)
  active : Z      (* uint8_t: 1 if allocated, 0 if freed *)
}.

Record MemState := mkMemState {
  init_stack_pointer : Z;
  max_stack_usage : Z;
  heap_used : Z;
  heap_total_allocated : Z;
  heap_total_freed : Z;
  alloc_count : Z;
  free_count : Z;
  collision_warning : Z
}.

Record MemoryStats := mkStats {
  st_total_sram : Z;
  st_static_data : Z;
  st_static_bss : Z;
  st_heap_used : Z;
  st_heap_total_allocated : Z;
  st_heap_total_freed : Z;
  st_alloc_count : Z;
  st_free_count : Z;
  st_current_stack_usage : Z;
  st_max_stack_usage : Z;
  st_free_ram : Z;
  st_fragmentation_ratio : Q;
  st_collision_warning : Z
}.

(** Everything the firmware reads or writes: the I/O registers, the
    allocator's break value, the SRAM bytes, and the two statics. *)
Record state := mkState {
  SREG : Z;
  SPL : Z;
  SPH : Z;
  brkval : Z;                              (* __brkval, 0 before the first malloc *)
  sram : Z -> Z;                           (* byte at each address *)
  s_alloc_table : list AllocationEntry;    (* MAX_HEAP_ALLOCATIONS slots *)
  s_mem_state : MemState
}.

Definition set_SREG (v : Z) (s : state) : state :=
  mkState v (SPL s) (SPH s) (brkval s) (sram s) (s_alloc_table s) (s_mem_state s).
Definition set_SP (sp : Z) (s : state) : state :=
  mkState (SREG s) (to_u8 sp) (to_u8 (Z.shiftr sp 8)) (brkval s) (sram s)
          (s_alloc_table s) (s_mem_state s).
Definition set_sram (m : Z -> Z) (s : state) : state :=
  mkState (SREG s) (SPL s) (SPH s) (brkval s) m (s_alloc_table s) (s_mem_state s).
Definition set_table (t : list AllocationEntry) (s : state) : state :=
  mkState (SREG s) (SPL s) (SPH s) (brkval s) (sram s) t (s_mem_state s).
Definition set_mem_state (ms : MemState) (s : state) : state :=
  mkState (SREG s) (SPL s) (SPH s) (brkval s) (sram s) (s_alloc_table s) ms.

Definition store (m : Z -> Z) (a v : Z) : Z -> Z :=
  fun a' => if a' =? a then v else m a'.

Definition set_max_stack_usage (v : Z) (ms : MemState) : MemState :=
  mkMemState (init_stack_pointer ms) v (heap_used ms) (heap_total_allocated ms)
             (heap_total_freed ms) (alloc_count ms) (free_count ms)
             (collision_warning ms).
Definition set_collision_warning (v : Z) (ms : MemState) : MemState :=
  mkMemState (init_stack_pointer ms) (max_stack_usage ms) (heap_used ms)
             (heap_total_allocated ms) (heap_total_freed ms) (alloc_count ms)
             (free_count ms) v.
Definition set_init_stack_pointer (v : Z) (ms : MemState) : MemState :=
  mkMemState v (max_stack_usage ms) (heap_used ms) (heap_total_allocated ms)
             (heap_total_freed ms) (alloc_count ms) (free_count ms)
             (collision_warning ms).

(** ** Register access with an access log

    The stack-pointer read is written against a small state monad that
    also logs every register access together with the interrupt-enable
    flag seen at that moment; the log is what "interrupts are off while
    SPL and SPH are read" is stated about. *)

Inductive io_reg := R_SREG | R_SPL | R_SPH.

Inductive io_event :=
| IoIn (r : io_reg) (irq_enabled : bool)
| IoOut (r : io_reg) (v : Z)
| IoCli.

Definition io (A : Type) : Type := state -> A * state * list io_event.

#[export] Instance io_ret : MRet io := fun A (a : A) s => (a, s, []).
#[export] Instance io_bind : MBind io := fun A B (k : A -> io B) (m : io A) s =>
  let '(a, s1, l1) := m s in
  let '(b, s2, l2) := k a s1 in
  (b, s2, l1 ++ l2).

Definition irq_enabled_flag (s : state) : bool := Z.testbit (SREG s) 7.

Definition read_reg (r : io_reg) (s : state) : Z :=
  match r with R_SREG => SREG s | R_SPL => SPL s | R_SPH => SPH s end.

Definition io_in (r : io_reg) : io Z :=
  fun s => (read_reg r s, s, [IoIn r (irq_enabled_flag s)]).

Definition io_out_SREG (v : Z) : io unit :=
  fun s => (tt, set_SREG v s, [IoOut R_SREG v]).

Definition io_cli : io unit :=
  fun s => (tt, set_SREG (Z.clearbit (SREG s) 7) s, [IoCli]).

(** [mem_monitor_get_stack_pointer], statement by statement. *)
Definition mem_monitor_get_stack_pointer_io : io Z :=
  sreg ← io_in R_SREG;
  _ ← io_cli;
  spl ← io_in R_SPL;
  sph ← io_in R_SPH;
  _ ← io_out_SREG (to_u8 sreg);
  mret (to_u16 (Z.lor (to_u16 spl) (to_u16 (Z.shiftl (to_u16 sph) 8)))).

(** What the callers see: the value and the state, without the log. *)
Definition mem_monitor_get_stack_pointer (s : state) : Z * state :=
  let '(sp, s', _) := mem_monitor_get_stack_pointer_io s in (sp, s').

(** ** Heap tracking *)

Definition set_slot (i : nat) (e : AllocationEntry) (s : state) : state :=
  set_table (<[i := e]> (s_alloc_table s)) s.

Definition stats_on_alloc (sz : Z) (ms : MemState) : MemState :=
  mkMemState (init_stack_pointer ms) (max_stack_usage ms)
             (add16 (heap_used ms) sz)
             (add16 (heap_total_allocated ms) sz)
             (heap_total_freed ms)
             (add16 (alloc_count ms) 1)
             (free_count ms) (collision_warning ms).

Definition stats_on_free (sz : Z) (ms : MemState) : MemState :=
  mkMemState (init_stack_pointer ms) (max_stack_usage ms)
             (sub16 (heap_used ms) sz)
             (heap_total_allocated ms)
             (add16 (heap_total_freed ms) sz)
             (alloc_count ms)
             (add16 (free_count ms) 1) (collision_warning ms).

(** The [for] loop of [mem_monitor_track_alloc]: [n] iterations are left
    and [i] is the loop index.  Running off the end of the loop is the
    "table full" exit, which does nothing.  The table is a C array of
    [MAX_HEAP_ALLOCATIONS] entries, so the lookup always succeeds on a
    table of that length ([inv_length] below); the [None] branch only
    makes the function total on shorter lists. *)
Fixpoint track_alloc_loop (n i : nat) (p sz : Z) (s : state) : state :=
  match n with
  | O => s
  | S n' =>
      match s_alloc_table s !! i with
      | Some e =>
          if active e =? 0 then
            set_mem_state (stats_on_alloc sz (s_mem_state s))
                          (set_slot i (mkEntry p sz 1) s)
          else track_alloc_loop n' (S i) p sz s
      | None => s
      end
  end.

Definition mem_monitor_track_alloc (p sz : Z) (s : state) : state :=
  if p =? NULL then s
  else track_alloc_loop MAX_HEAP_ALLOCATIONS 0 p sz s.

(** The [for] loop of [mem_monitor_track_free]; falling off the end is
    the "untracked pointer" exit, which does nothing. *)
Fixpoint track_free_loop (n i : nat) (p : Z) (s : state) : state :=
  match n with
  | O => s
  | S n' =>
      match s_alloc_table s !! i with
      | Some e =>
          if negb (active e =? 0) && (ptr e =? p) then
            set_slot i (mkEntry (ptr e) (size e) 0)
                     (set_mem_state (stats_on_free (size e) (s_mem_state s)) s)
          else track_free_loop n' (S i) p s
      | None => s
      end
  end.

Definition mem_monitor_track_free (p : Z) (s : state) : state :=
  if p =? NULL then s
  else track_free_loop MAX_HEAP_ALLOCATIONS 0 p s.

(** ** Functions that depend on the memory map

    The addresses of the linker symbols [__heap_start], [__data_start],
    [__data_end], [__bss_start] and [__bss_end] are fixed at link time;
    they are parameters of the model. *)

Section Linked.

Variables heap_start data_start data_end bss_start bss_end : Z.

(** [__brkval ? __brkval : &__heap_start] *)
Definition heap_end (s : state) : Z :=
  if brkval s =? NULL then heap_start else brkval s.

(** *** Initialisation *)

(** The sentinel fill loop: [for (ptr = heap_end; ptr < stack_ptr; ptr++)]. *)
Fixpoint fill_loop (n : nat) (p stack_ptr : Z) (m : Z -> Z) : Z -> Z :=
  match n with
  | O => m
  | S n' =>
      if p <? stack_ptr
      then fill_loop n' (p + 1) stack_ptr (store m p STACK_SENTINEL)
      else m
  end.

Definition mem_monitor_init (s : state) : state :=
  let s := set_table (replicate MAX_HEAP_ALLOCATIONS (mkEntry 0 0 0)) s in
  let s := set_mem_state (mkMemState 0 0 0 0 0 0 0 0) s in
  let '(sp, s) := mem_monitor_get_stack_pointer s in
  let s := set_mem_state (set_init_stack_pointer sp (s_mem_state s)) s in
  let he := heap_end s in
  let '(stack_ptr, s) := mem_monitor_get_stack_pointer s in
  set_sram (fill_loop (Z.to_nat (stack_ptr - he)) he stack_ptr (sram s)) s.

(** *** Stack monitoring *)

(** The scan loop: it continues while the byte at [scan_ptr] is the
    sentinel and [scan_ptr < RAMEND].
    It runs at most [RAMEND - heap_end] times, which is the fuel given
    by [scan_stack_usage]. *)
Fixpoint scan_loop (fuel : nat) (m : Z -> Z) (scan_ptr : Z) : Z :=
  match fuel with
  | O => scan_ptr
  | S fuel' =>
      if (m scan_ptr =? STACK_SENTINEL) && (scan_ptr <? RAMEND)
      then scan_loop fuel' m (scan_ptr + 1)
      else scan_ptr
  end.

Definition scan_stop (s : state) : Z :=
  scan_loop (Z.to_nat (RAMEND - heap_end s)) (sram s) (heap_end s).

Definition scan_stack_usage (s : state) : Z :=
  sub16 RAMEND (to_u16 (scan_stop s)).

Definition mem_monitor_get_current_stack_usage (s : state) : Z * state :=
  let '(current_sp, s) := mem_monitor_get_stack_pointer s in
  (sub16 RAMEND current_sp, s).

Definition mem_monitor_get_max_stack_usage (s : state) : Z :=
  max_stack_usage (s_mem_state s).

Definition mem_monitor_get_free_stack_space (s : state) : Z * state :=
  let '(current_sp, s) := mem_monitor_get_stack_pointer s in
  let he := heap_end s in
  if current_sp >? to_u16 he
  then (sub16 current_sp (to_u16 he), s)
  else (0, s).

(** *** Heap analysis *)

Definition mem_monitor_get_heap_used (s : state) : Z :=
  heap_used (s_mem_state s).

(** The result type is [float].  Every value the function can produce is
    [0], [1] or [n / 32] with [0 <= n < 65536]: the conversion of a
    16-bit integer to binary32 is exact, so is the division by a power
    of two, and so is the comparison with [1.0].  The rational below is
    therefore the exact value of the returned float. *)
Definition mem_monitor_get_fragmentation_ratio (s : state) : Q :=
  let ms := s_mem_state s in
  let he := if brkval s =? NULL then heap_start else brkval s in
  let total_heap := sub16 (to_u16 he) (to_u16 heap_start) in
  let total_free := sub16 total_heap (heap_used ms) in
  if (total_free =? 0) || (alloc_count ms =? 0) then 0%Q
  else if alloc_count ms >? add16 (free_count ms) 5 then
    let frag := (inject_Z (sub16 (alloc_count ms) (free_count ms))
                 / inject_Z (Z.of_nat MAX_HEAP_ALLOCATIONS))%Q in
    if Qle_bool frag 1 then frag else 1%Q
  else 0%Q.

(** *** Collision detection *)

Definition mem_monitor_check_collision (s : state) : Z * state :=
  let '(current_sp, s) := mem_monitor_get_stack_pointer s in
  let he := heap_end s in
  let gap := sub16 current_sp (to_u16 he) in
  if gap <? COLLISION_SAFETY_MARGIN
  then (1, set_mem_state (set_collision_warning 1 (s_mem_state s)) s)
  else (0, set_mem_state (set_collision_warning 0 (s_mem_state s)) s).

(** *** Update and statistics *)

Definition mem_monitor_update (s : state) : state :=
  let max_stack := scan_stack_usage s in
  let s :=
    if max_stack >? max_stack_usage (s_mem_state s)
    then set_mem_state (set_max_stack_usage max_stack (s_mem_state s)) s
    else s in
  snd (mem_monitor_check_collision s).

(** The structure the caller passes by pointer is returned as a value;
    the early return on a null pointer has nothing to fill in and is not
    represented. *)
Definition mem_monitor_get_stats (s : state) : MemoryStats * state :=
  let data_size := sub16 (to_u16 data_end) (to_u16 data_start) in
  let bss_size := sub16 (to_u16 bss_end) (to_u16 bss_start) in
  let ms := s_mem_state s in
  let '(cur, s1) := mem_monitor_get_current_stack_usage s in
  let '(free_ram, s2) := mem_monitor_get_free_stack_space s1 in
  (mkStats (to_u16 (RAMEND - 0x0100 + 1)) data_size bss_size
           (heap_used ms) (heap_total_allocated ms) (heap_total_freed ms)
           (alloc_count ms) (free_count ms)
           cur (max_stack_usage (s_mem_state s1)) free_ram
           (mem_monitor_get_fragmentation_ratio s2)
           (collision_warning (s_mem_state s2)),
   s2).

(** ** Call sequences *)

(** Calls made by the allocator wrappers. *)
Inductive ledger_op :=
| OpAlloc (p sz : Z)      (* mem_monitor_track_alloc(p, sz) *)
| OpFree (p : Z).         (* mem_monitor_track_free(p) *)

Definition ledger_step (o : ledger_op) (s : state) : state :=
  match o with
  | OpAlloc p sz => mem_monitor_track_alloc p sz s
  | OpFree p => mem_monitor_track_free p s
  end.

Definition ledger_run (ops : list ledger_op) (s : state) : state :=
  fold_left (fun s o => ledger_step o s) ops s.

Definition is_active (e : AllocationEntry) : bool := negb (active e =? 0).

Definition active_slots (t : list AllocationEntry) : nat :=
  length (List.filter is_active t).

Definition table_full (t : list AllocationEntry) : bool :=
  forallb is_active t.

(** An allocation is rejected when it is non-null and finds every slot
    active. *)
Definition rejected (o : ledger_op) (s : state) : bool :=
  match o with
  | OpAlloc p sz => negb (p =? NULL) && table_full (s_alloc_table s)
  | OpFree _ => false
  end.

Fixpoint no_saturation (ops : list ledger_op) (s : state) : bool :=
  match ops with
  | [] => true
  | o :: ops' => negb (rejected o s) && no_saturation ops' (ledger_step o s)
  end.

(** What happens to the stack between two polls. *)
Inductive stack_event :=
| EvUpdate                 (* the application calls mem_monitor_update *)
| EvStore (a v : Z)        (* the stack grows over address [a] and stores byte [v] there *)
| EvMoveSP (sp : Z).       (* the stack pointer moves: a call, or an unwind *)

Definition stack_step (e : stack_event) (s : state) : state :=
  match e with
  | EvUpdate => mem_monitor_update s
  | EvStore a v => set_sram (store (sram s) a v) s
  | EvMoveSP sp => set_SP sp s
  end.

Definition stack_run (evs : list stack_event) (s : state) : state :=
  fold_left (fun s e => stack_step e s) evs s.

(** A stack store destroys a sentinel for good when the byte written is
    not the sentinel value and lands in the scanned region. *)
Definition store_ok (s : state) (e : stack_event) : bool :=
  match e with
  | EvStore a v =>
      negb (v =? STACK_SENTINEL) && (heap_end s <=? a) && (a <=? RAMEND)
  | _ => true
  end.

(** Penetration depth of a store at address [a]: its distance to the
    top of SRAM. *)
Definition penetration (e : stack_event) : Z :=
  match e with
  | EvStore a _ => RAMEND - a
  | _ => 0
  end.

Definition max_penetration (evs : list stack_event) : Z :=
  fold_right (fun e acc => Z.max (penetration e) acc) 0 evs.

End Linked.

(** * Derived notions and sample states *)

(** The 16-bit value assembled from [SPL] and [SPH]. *)
Definition sp_value (s : state) : Z :=
  to_u16 (Z.lor (to_u16 (SPL s)) (to_u16 (Z.shiftl (to_u16 (SPH s)) 8))).

Definition sample_hw (sreg spl sph brk : Z) : state :=
  mkState sreg spl sph brk (fun _ => 0)
          (replicate MAX_HEAP_ALLOCATIONS (mkEntry 0 0 0))
          (mkMemState 0 0 0 0 0 0 0 0).

(** The stack has run 256 bytes into the heap: [SP = 0x0500] while
    [__brkval = 0x0600]. *)
Definition overrun_state : state := sample_hw 0x80 0x00 0x05 0x0600.

Definition active_bit (e : AllocationEntry) : nat :=
  if is_active e then 1%nat else 0%nat.

(** [tracked p t]: some active slot of [t] records the address [p]. *)
Definition tracked (p : Z) (t : list AllocationEntry) : bool :=
  existsb (fun e => is_active e && (ptr e =? p)) t.

(** What every ledger state reached from [mem_monitor_init] satisfies. *)
Record ledger_inv (s : state) : Prop := mkLedgerInv {
  inv_length : length (s_alloc_table s) = MAX_HEAP_ALLOCATIONS;
  inv_bytes :
    heap_used (s_mem_state s) =
    sub16 (heap_total_allocated (s_mem_state s)) (heap_total_freed (s_mem_state s));
  inv_count :
    Z.of_nat (active_slots (s_alloc_table s)) =
    sub16 (alloc_count (s_mem_state s)) (free_count (s_mem_state s));
  inv_allocated : is_u16 (heap_total_allocated (s_mem_state s));
  inv_freed : is_u16 (heap_total_freed (s_mem_state s));
  inv_alloc_count : is_u16 (alloc_count (s_mem_state s));
  inv_free_count : is_u16 (free_count (s_mem_state s))
}.

(** The monitor right after [mem_monitor_init], on a board whose heap
    starts at [0x0200], with [SP = 0x08F0] and interrupts enabled. *)
Definition booted : state := mem_monitor_init 0x0200 (sample_hw 0x80 0xF0 0x08 0).

(** Thirty-two eight-byte blocks at [0x0300], [0x0308], ... *)
Definition fill_ops : list ledger_op :=
  List.map (fun i => OpAlloc (0x0300 + 8 * Z.of_nat i) 8) (seq 0 MAX_HEAP_ALLOCATIONS).

Definition full_state : state := ledger_run fill_ops booted.

Definition one_block : state := ledger_run [OpAlloc 0x0300 8] booted.

Definition sample_ops : list ledger_op :=
  [OpAlloc 0x0300 16; OpAlloc 0x0310 8; OpFree 0x0300; OpAlloc 0x0320 4].

(** [first_stop m lo q]: scanning [m] upward from [lo], [q] is the first
    address that is not a sentinel, or [RAMEND] if there is none below. *)
Definition first_stop (m : Z -> Z) (lo q : Z) : Prop :=
  lo <= q <= RAMEND
  /\ (forall a, lo <= a < q -> m a = STACK_SENTINEL)
  /\ (q = RAMEND \/ m q <> STACK_SENTINEL).

(** The scenario of a deep call that unwinds, on a board whose heap ends
    at [0x050F] (1008 bytes below [RAMEND]) and whose stack top is 8
    bytes below [RAMEND] when the monitor is armed. *)
Definition armed : state := mem_monitor_init 0x050F (sample_hw 0x80 0xF7 0x08 0).

Definition deep_call : list stack_event :=
  [ EvUpdate; EvMoveSP 0x08C4 ]
  ++ List.map (fun i => EvStore (0x08C5 + Z.of_nat i) 0x55) (seq 0 8)
  ++ [ EvUpdate; EvMoveSP 0x08F7 ].

(** The value of the function's local [total_free]: [(heap_end -
    heap_start) - heap_used] in two 16-bit subtractions.  It is the
    region's free space ([region_free_space] below) while [heap_used]
    does not exceed the region size, and wraps otherwise. *)
Definition total_free_heap (heap_start : Z) (s : state) : Z :=
  sub16 (sub16 (to_u16 (heap_end heap_start s)) (to_u16 heap_start))
        (heap_used (s_mem_state s)).

(** Free bytes of the dynamic region: its size less the bytes in use. *)
Definition region_free_space (heap_start : Z) (s : state) : Z :=
  heap_end heap_start s - heap_start - heap_used (s_mem_state s).

(** The ratio before clamping: live allocations over table capacity. *)
Definition live_over_capacity (s : state) : Q :=
  (inject_Z (sub16 (alloc_count (s_mem_state s)) (free_count (s_mem_state s)))
   / inject_Z (Z.of_nat MAX_HEAP_ALLOCATIONS))%Q.

(** The policy in the words of the specification, to compare with the
    code: its test is [(alloc_count - free_count) > (free_count + 5)]. *)
Definition spec_fragmentation_ratio (heap_start : Z) (s : state) : Q :=
  let ms := s_mem_state s in
  if (total_free_heap heap_start s =? 0) || (alloc_count ms =? 0) then 0%Q
  else if alloc_count ms - free_count ms >? free_count ms + 5
       then Qmin 1 (inject_Z (alloc_count ms - free_count ms)
                    / inject_Z (Z.of_nat MAX_HEAP_ALLOCATIONS))
       else 0%Q.

(** A board whose heap runs from [0x0200] to [0x0400]. *)
Definition running : state := mem_monitor_init 0x0200 (sample_hw 0x80 0xF0 0x08 0x0400).

Definition alloc_blocks (n : nat) : list ledger_op :=
  List.map (fun i => OpAlloc (0x0200 + 8 * Z.of_nat i) 8) (seq 0 n).

Definition free_blocks (n : nat) : list ledger_op :=
  List.map (fun i => OpFree (0x0200 + 8 * Z.of_nat i)) (seq 0 n).

(** [after_calls a f]: the state after [a] allocations and [f] frees. *)
Definition after_calls (a f : nat) : state :=
  ledger_run (alloc_blocks a ++ free_blocks f) running.

(** * The allocator wrappers

    [__wrap_malloc] and [__wrap_free] call the real allocator, which the
    linker supplies as [__real_malloc] and [__real_free]; both are
    parameters of the model. *)

Section Allocator.

Variable __real_malloc : Z -> state -> Z * state.
Variable __real_free : Z -> state -> state.

Definition __wrap_malloc (size : Z) (s : state) : Z * state :=
  let '(ptr, s) := __real_malloc size s in
  (ptr, mem_monitor_track_alloc ptr (to_u16 size) s).

Definition __wrap_free (ptr : Z) (s : state) : state :=
  __real_free ptr (mem_monitor_track_free ptr s).

End Allocator.

(** * The UART driver ([uart_driver.cpp])

    Bit positions of the ATmega328P USART0 registers ([avr/io.h]). *)

Definition UDRE0 : Z := 5.
Definition TXEN0 : Z := 3.
Definition UCSZ01 : Z := 2.
Definition UCSZ00 : Z := 1.

Definition to_u32 (x : Z) : Z := x mod 4294967296.
Definition is_u32 (x : Z) : Prop := 0 <= x < 4294967296.

(** The driver's view of the USART and its one static buffer.  The
    status register is set by the hardware, so it is given as the
    sequence of values that successive reads return; [status_reads]
    counts the reads made so far.  [UDR0] lists the bytes written to the
    data register, oldest first. *)
Record uart := mkUart {
  UBRR0H : Z;
  UBRR0L : Z;
  UCSR0B : Z;
  UCSR0C : Z;
  UCSR0A : nat -> Z;
  status_reads : nat;
  UDR0 : list Z;
  print_u16_buffer : Z -> Z      (* static char buffer[6], by index *)
}.

Definition read_status (u : uart) : Z * uart :=
  (UCSR0A u (status_reads u),
   mkUart (UBRR0H u) (UBRR0L u) (UCSR0B u) (UCSR0C u) (UCSR0A u)
          (S (status_reads u)) (UDR0 u) (print_u16_buffer u)).

Definition write_UDR0 (v : Z) (u : uart) : uart :=
  mkUart (UBRR0H u) (UBRR0L u) (UCSR0B u) (UCSR0C u) (UCSR0A u)
         (status_reads u) (UDR0 u ++ [v]) (print_u16_buffer u).

Definition set_print_u16_buffer (b : Z -> Z) (u : uart) : uart :=
  mkUart (UBRR0H u) (UBRR0L u) (UCSR0B u) (UCSR0C u) (UCSR0A u)
         (status_reads u) (UDR0 u) b.

(** [uart_init]: [None] stands for the division by zero that the
    computation of [ubrr] runs into when [16UL * baud] is 0. *)
Definition uart_init (baud f_cpu : Z) (u : uart) : option uart :=
  let divisor := to_u32 (16 * baud) in
  if divisor =? 0 then None
  else
    let ubrr := to_u16 (to_u32 (f_cpu / divisor - 1)) in
    Some (mkUart (to_u8 (Z.shiftr ubrr 8)) (to_u8 ubrr)
                 (Z.shiftl 1 TXEN0)
                 (Z.lor (Z.shiftl 1 UCSZ01) (Z.shiftl 1 UCSZ00))
                 (UCSR0A u) (status_reads u) (UDR0 u) (print_u16_buffer u)).

(** The busy-wait of [uart_putc]: poll the status register until the
    data-register-empty flag is seen.  [polls] bounds the number of
    reads; [None] means the flag was not seen within the bound. *)
Fixpoint wait_for_empty (polls : nat) (u : uart) : option uart :=
  match polls with
  | O => None
  | S polls' =>
      let '(v, u') := read_status u in
      if Z.land v (Z.shiftl 1 UDRE0) =? 0
      then wait_for_empty polls' u'
      else Some u'
  end.

Definition uart_putc (polls : nat) (data : Z) (u : uart) : option uart :=
  u' ← wait_for_empty polls u;
  Some (write_UDR0 (to_u8 data) u').

(** [uart_puts]: [mem] is the data memory the pointer [str] refers to,
    [fuel] bounds the number of characters examined. *)
Fixpoint uart_puts (polls : nat) (mem : Z -> Z) (fuel : nat) (str : Z) (u : uart)
  : option uart :=
  match fuel with
  | O => None
  | S fuel' =>
      if mem str =? 0 then Some u
      else u' ← uart_putc polls (mem str) u;
           uart_puts polls mem fuel' (str + 1) u'
  end.

(** [uart_puts_P]: the same loop over program memory ([pgm_read_byte]). *)
Fixpoint uart_puts_P (polls : nat) (flash : Z -> Z) (fuel : nat) (str : Z) (u : uart)
  : option uart :=
  match fuel with
  | O => None
  | S fuel' =>
      let c := flash str in
      if c =? 0 then Some u
      else u' ← uart_putc polls c u;
           uart_puts_P polls flash fuel' (str + 1) u'
  end.

(** The digit loop of [uart_print_u16]: it stores digits downwards from
    [ptr] while [value > 0]. *)
Fixpoint u16_digits (fuel : nat) (value : Z) (buf : Z -> Z) (ptr : Z)
  : (Z -> Z) * Z :=
  match fuel with
  | O => (buf, ptr)
  | S fuel' =>
      if value >? 0
      then u16_digits fuel' (value / 10)
                      (store buf (ptr - 1) (to_u8 (48 + value mod 10))) (ptr - 1)
      else (buf, ptr)
  end.

(** A 16-bit value has at most five digits, which is what the six-byte
    buffer allows for; the digit loop and the string output are given
    that many steps. *)
Definition uart_print_u16 (polls : nat) (value : Z) (u : uart) : option uart :=
  let ptr := 5 in
  let buf := store (print_u16_buffer u) ptr 0 in
  let u := set_print_u16_buffer buf u in
  if value =? 0 then uart_putc polls 48 u
  else
    let '(buf, ptr) := u16_digits 5 value buf ptr in
    uart_puts polls buf 6 ptr (set_print_u16_buffer buf u).

(** String literals of the driver, as bytes. *)
Module Literal.
Import Ascii String.
Definition bytes (s : string) : list Z :=
  List.map (fun c => Z.of_N (N_of_ascii c)) (list_ascii_of_string s).
Definition hex_prefix : list Z := bytes "0x".
Definition hex_digits : list Z := bytes "0123456789ABCDEF".
End Literal.

(** The memory a literal occupies: its bytes from index 0, then NUL. *)
Definition literal_mem (l : list Z) : Z -> Z :=
  fun a => if a <? 0 then 0 else nth (Z.to_nat a) l 0.

(** The [for] loop of [uart_print_hex16]: [i] goes 12, 8, 4, 0. *)
Fixpoint hex16_loop (polls fuel : nat) (i value : Z) (u : uart) : option uart :=
  match fuel with
  | O => None
  | S fuel' =>
      if i >=? 0 then
        let digit := to_u8 (Z.land (Z.shiftr value i) 0x0F) in
        u' ← uart_putc polls (literal_mem Literal.hex_digits digit) u;
        hex16_loop polls fuel' (i - 4) value u'
      else Some u
  end.

Definition uart_print_hex16 (polls : nat) (value : Z) (u : uart) : option uart :=
  u' ← uart_puts polls (literal_mem Literal.hex_prefix) 3 0 u;
  hex16_loop polls 5 12 value u'.

Definition uart_newline (polls : nat) (u : uart) : option uart :=
  u' ← uart_putc polls 13 u;
  uart_putc polls 10 u'.

(** * Notions used by the further properties *)

(** Bytes recorded by the active slots of the table. *)
Definition active_bytes (t : list AllocationEntry) : Z :=
  fold_right (fun e acc => if is_active e then size e + acc else acc) 0 t.

(** [free_slot e]: the slot can be claimed by an allocation. *)
Definition free_slot (e : AllocationEntry) : Prop := is_active e = false.

(** [records p e]: the slot is active and holds the address [p]. *)
Definition records (p : Z) (e : AllocationEntry) : Prop :=
  is_active e = true /\ ptr e = p.

#[export] Instance free_slot_dec e : Decision (free_slot e).
Proof. unfold free_slot. apply _. Defined.

#[export] Instance records_dec p e : Decision (records p e).
Proof. unfold records. apply _. Defined.

(** The ledger part of the state: what the tracking calls may change. *)
Definition same_hardware (s s' : state) : Prop :=
  SREG s' = SREG s /\ SPL s' = SPL s /\ SPH s' = SPH s
  /\ brkval s' = brkval s /\ sram s' = sram s.

Definition same_ledger (s s' : state) : Prop :=
  s_alloc_table s' = s_alloc_table s
  /\ heap_used (s_mem_state s') = heap_used (s_mem_state s)
  /\ heap_total_allocated (s_mem_state s') = heap_total_allocated (s_mem_state s)
  /\ heap_total_freed (s_mem_state s') = heap_total_freed (s_mem_state s)
  /\ alloc_count (s_mem_state s') = alloc_count (s_mem_state s)
  /\ free_count (s_mem_state s') = free_count (s_mem_state s).

(** The transmitter is ready when the data-register-empty flag is set. *)
Definition tx_ready (v : Z) : bool := negb (Z.land v (Z.shiftl 1 UDRE0) =? 0).

(** [ready_within d u]: from any point on, the hardware shows the flag
    within [d] reads of the status register. *)
Definition ready_within (d : nat) (u : uart) : Prop :=
  forall k : nat, exists j : nat, (j < d)%nat /\ tx_ready (UCSR0A u (k + j)) = true.

(** [c_string mem p l]: the bytes of [l], none of them NUL, lie in [mem]
    from address [p] and are followed by NUL. *)
Fixpoint c_string (mem : Z -> Z) (p : Z) (l : list Z) : Prop :=
  match l with
  | [] => mem p = 0
  | c :: l' => mem p = c /\ c <> 0 /\ c_string mem (p + 1) l'
  end.

(** Value of a string of decimal digit characters. *)
Definition decimal_value (l : list Z) : Z :=
  fold_left (fun acc c => 10 * acc + (c - 48)) l 0.

(** Value of one hexadecimal digit character, and of a string of them. *)
Definition hex_digit_value (c : Z) : Z :=
  if c <=? 57 then c - 48 else c - 55.

Definition hex_value (l : list Z) : Z :=
  fold_left (fun acc c => 16 * acc + hex_digit_value c) l 0.

Definition is_decimal_digit (c : Z) : Prop := 48 <= c <= 57.

(** Same configuration registers and same hardware behaviour. *)
Definition same_uart_setup (u u' : uart) : Prop :=
  UBRR0H u' = UBRR0H u /\ UBRR0L u' = UBRR0L u
  /\ UCSR0B u' = UCSR0B u /\ UCSR0C u' = UCSR0C u
  /\ UCSR0A u' = UCSR0A u.

(** [transmits u l u']: going from [u] to [u'] the driver wrote exactly
    the bytes [l] to the data register and changed no configuration. *)
Definition transmits (u : uart) (l : list Z) (u' : uart) : Prop :=
  same_uart_setup u u' /\ UDR0 u' = UDR0 u ++ l.

(** A transmitter that is always ready, and one that is ready on every
    third read. *)
Definition idle_uart : uart :=
  mkUart 0 0 0 0 (fun _ => 0x20) 0 [] (fun _ => 0).

Definition slow_uart : uart :=
  mkUart 0 0 0 0 (fun k => if (k mod 3 =? 2)%nat then 0x20 else 0) 0 [] (fun _ => 0).

(** A bump allocator, to exercise the wrappers: it hands out the heap
    end and raises [__brkval]; its [free] does nothing. *)
Definition bump_malloc (heap_start size : Z) (s : state) : Z * state :=
  let p := heap_end heap_start s in
  (p, mkState (SREG s) (SPL s) (SPH s) (p + size) (sram s)
              (s_alloc_table s) (s_mem_state s)).

Definition bump_free (ptr : Z) (s : state) : state := s.

(** The real allocator does not touch the monitor's statics. *)
Definition allocator_keeps_monitor
           (real_malloc : Z -> state -> Z * state)
           (real_free : Z -> state -> state) : Prop :=
  (forall sz s, s_alloc_table (snd (real_malloc sz s)) = s_alloc_table s
                /\ s_mem_state (snd (real_malloc sz s)) = s_mem_state s)
  /\ (forall p s, s_alloc_table (real_free p s) = s_alloc_table s
                  /\ s_mem_state (real_free p s) = s_mem_state s).

(** * Properties *)

(** ** Machine integers *)

Lemma to_u16_range x : is_u16 (to_u16 x).
Proof. unfold is_u16, to_u16. apply Z.mod_pos_bound. lia. Qed.

Lemma to_u8_range x : is_u8 (to_u8 x).
Proof. unfold is_u8, to_u8. apply Z.mod_pos_bound. lia. Qed.

Lemma to_u16_id x : is_u16 x -> to_u16 x = x.
Proof. unfold is_u16, to_u16. intros H. apply Z.mod_small. lia. Qed.

Lemma to_u8_id x : is_u8 x -> to_u8 x = x.
Proof. unfold is_u8, to_u8. intros H. apply Z.mod_small. lia. Qed.

Lemma sub16_no_borrow x y : is_u16 x -> is_u16 y -> y <= x -> sub16 x y = x - y.
Proof.
  unfold sub16, is_u16. intros Hx Hy Hle. apply to_u16_id. unfold is_u16. lia.
Qed.

Lemma sub16_borrow x y : is_u16 x -> is_u16 y -> x < y -> sub16 x y = x - y + 65536.
Proof.
  unfold sub16, to_u16, is_u16. intros Hx Hy Hlt.
  symmetry. apply (Z.mod_unique_pos _ _ (-1)); lia.
Qed.

(** ** Reading the stack pointer *)

Lemma get_stack_pointer_eq s :
  mem_monitor_get_stack_pointer s = (sp_value s, set_SREG (to_u8 (SREG s)) s).
Proof. reflexivity. Qed.

Lemma sp_value_range s : is_u16 (sp_value s).
Proof. apply to_u16_range. Qed.

Lemma set_SREG_same s : set_SREG (SREG s) s = s.
Proof. destruct s; reflexivity. Qed.

Lemma get_stack_pointer_state s :
  is_u8 (SREG s) -> snd (mem_monitor_get_stack_pointer s) = s.
Proof.
  intros H. rewrite get_stack_pointer_eq. simpl.
  rewrite to_u8_id by exact H. apply set_SREG_same.
Qed.

(** C8.  [mem_monitor_get_stack_pointer] saves [SREG], clears the
    interrupt-enable flag, reads [SPL] then [SPH] while the flag is
    clear (both reads are logged with the flag off), and writes the saved
    value back: on return [SREG], and with it the interrupt-enable flag,
    is what it was before the call, whatever that was.  In particular a
    call made with interrupts disabled returns with interrupts disabled. *)
Theorem get_stack_pointer_restores_SREG (s : state) :
  is_u8 (SREG s) ->
  let '(sp, s', log) := mem_monitor_get_stack_pointer_io s in
  log = [ IoIn R_SREG (irq_enabled_flag s); IoCli;
          IoIn R_SPL false; IoIn R_SPH false;
          IoOut R_SREG (SREG s) ]
  /\ SREG s' = SREG s
  /\ irq_enabled_flag s' = irq_enabled_flag s
  /\ (irq_enabled_flag s = false -> irq_enabled_flag s' = false)
  /\ s' = s
  /\ sp = sp_value s.
Proof.
  intros H.
  assert (Hbit : Z.testbit (Z.clearbit (SREG s) 7) 7 = false).
  { rewrite Z.clearbit_eqb by lia. rewrite Z.eqb_refl. apply andb_false_r. }
  unfold mem_monitor_get_stack_pointer_io, mbind, io_bind, mret, io_ret,
    io_in, io_cli, io_out_SREG, irq_enabled_flag.
  cbn -[Z.testbit Z.clearbit to_u8 to_u16 Z.lor Z.shiftl].
  rewrite Hbit, (to_u8_id _ H).
  split; [reflexivity |]. split; [reflexivity |]. split; [reflexivity |].
  split; [tauto |]. split; [| reflexivity].
  destruct s; reflexivity.
Qed.

(** A call made with interrupts disabled ([SREG = 0x02]: only the zero
    flag set) at [SP = 0x08F0]. *)
Lemma get_stack_pointer_restores_SREG_witness :
  let '(sp, s', log) :=
    mem_monitor_get_stack_pointer_io (sample_hw 0x02 0xF0 0x08 0) in
  log = [ IoIn R_SREG false; IoCli; IoIn R_SPL false; IoIn R_SPH false;
          IoOut R_SREG 0x02 ]
  /\ SREG s' = 0x02
  /\ irq_enabled_flag s' = false
  /\ (false = false -> irq_enabled_flag s' = false)
  /\ s' = sample_hw 0x02 0xF0 0x08 0
  /\ sp = 0x08F0.
Proof.
  apply (get_stack_pointer_restores_SREG (sample_hw 0x02 0xF0 0x08 0)).
  unfold is_u8; simpl; lia.
Defined.

(** ** Collision check and free gap *)

Section Gap.

Variable heap_start : Z.

Lemma check_collision_eq s :
  mem_monitor_check_collision heap_start s =
  let s1 := set_SREG (to_u8 (SREG s)) s in
  let v := if sub16 (sp_value s) (to_u16 (heap_end heap_start s)) <? COLLISION_SAFETY_MARGIN
           then 1 else 0 in
  (v, set_mem_state (set_collision_warning v (s_mem_state s1)) s1).
Proof.
  unfold mem_monitor_check_collision. rewrite get_stack_pointer_eq. cbv zeta.
  change (heap_end heap_start (set_SREG (to_u8 (SREG s)) s))
    with (heap_end heap_start s).
  destruct (_ <? _); reflexivity.
Qed.

(** The verdict is decided by the 16-bit difference. *)
Lemma check_collision_verdict s :
  fst (mem_monitor_check_collision heap_start s) = 1 <->
  sub16 (sp_value s) (to_u16 (heap_end heap_start s)) < COLLISION_SAFETY_MARGIN.
Proof.
  rewrite check_collision_eq. cbv zeta. simpl fst.
  destruct (Z.ltb_spec (sub16 (sp_value s) (to_u16 (heap_end heap_start s)))
                       COLLISION_SAFETY_MARGIN); split; intros; try lia; discriminate.
Qed.

(** While the stack top is at or above the heap end, the verdict is the
    comparison of the true gap with the margin. *)
Lemma check_collision_above_heap s :
  is_u16 (heap_end heap_start s) ->
  heap_end heap_start s <= sp_value s ->
  (fst (mem_monitor_check_collision heap_start s) = 1 <->
   sp_value s - heap_end heap_start s < COLLISION_SAFETY_MARGIN).
Proof.
  intros Hhe Hle. rewrite check_collision_verdict.
  rewrite (to_u16_id _ Hhe).
  rewrite sub16_no_borrow; [tauto | apply sp_value_range | exact Hhe | exact Hle].
Qed.

(** Once the stack top is below the heap end by more than the margin
    allows to wrap, the 16-bit difference is huge and the verdict is
    "no collision". *)
Lemma check_collision_below_heap s :
  is_u16 (heap_end heap_start s) ->
  sp_value s < heap_end heap_start s ->
  heap_end heap_start s - sp_value s <= 65536 - COLLISION_SAFETY_MARGIN ->
  fst (mem_monitor_check_collision heap_start s) = 0.
Proof.
  intros Hhe Hlt Hfar. rewrite check_collision_eq. cbv zeta. simpl fst.
  rewrite (to_u16_id _ Hhe).
  rewrite sub16_borrow; [| apply sp_value_range | exact Hhe | exact Hlt].
  destruct (Z.ltb_spec (sp_value s - heap_end heap_start s + 65536)
                       COLLISION_SAFETY_MARGIN); [| reflexivity].
  unfold COLLISION_SAFETY_MARGIN in *. lia.
Qed.

End Gap.

Lemma sp_value_regs s :
  is_u8 (SPL s) -> is_u8 (SPH s) -> sp_value s = SPL s + 256 * SPH s.
Proof.
  unfold is_u8, sp_value. intros Hl Hh.
  assert (Hshift : Z.shiftl (SPH s) 8 = 256 * SPH s).
  { rewrite Z.shiftl_mul_pow2 by lia. change (2 ^ 8) with 256. lia. }
  assert (Hland : Z.land (SPL s) (Z.shiftl (SPH s) 8) = 0).
  { apply Z.bits_inj'. intros n Hn. rewrite Z.land_spec, Z.bits_0.
    destruct (Z.lt_ge_cases n 8) as [Hlow | Hhigh].
    - rewrite Z.shiftl_spec_low by lia. apply andb_false_r.
    - replace (SPL s) with (SPL s mod 2 ^ 8)
        by (change (2 ^ 8) with 256; apply Z.mod_small; lia).
      rewrite Z.mod_pow2_bits_high by lia. reflexivity. }
  rewrite (to_u16_id (SPL s)) by (unfold is_u16; lia).
  rewrite (to_u16_id (SPH s)) by (unfold is_u16; lia).
  rewrite (to_u16_id (Z.shiftl (SPH s) 8)) by (rewrite Hshift; unfold is_u16; lia).
  rewrite <- Z.lxor_lor by exact Hland.
  rewrite <- Z.add_nocarry_lxor by exact Hland.
  rewrite Hshift.
  apply to_u16_id. unfold is_u16. lia.
Qed.

Lemma sp_value_set_SP sp s : is_u16 sp -> sp_value (set_SP sp s) = sp.
Proof.
  intros H. rewrite sp_value_regs; simpl; try apply to_u8_range.
  unfold to_u8, is_u16 in *. rewrite Z.shiftr_div_pow2 by lia.
  change (2 ^ 8) with 256.
  rewrite (Z.mod_small (sp / 256)).
  - pose proof (Z.div_mod sp 256). lia.
  - split; [apply Z.div_pos; lia | apply Z.div_lt_upper_bound; lia].
Qed.

(** C3 (the code departs from the claim).  With the stack top 256 bytes
    below the heap end the true gap is negative, hence below the margin,
    yet the unguarded 16-bit subtraction wraps to 65280 and
    [mem_monitor_check_collision] answers 0 and clears the warning; the
    sibling [mem_monitor_get_free_stack_space] guards the same
    subtraction and reports 0 bytes free on the same state. *)
Theorem check_collision_wraps_on_overrun :
  sp_value overrun_state = 0x0500
  /\ heap_end 0x0200 overrun_state = 0x0600
  /\ sp_value overrun_state - heap_end 0x0200 overrun_state < COLLISION_SAFETY_MARGIN
  /\ fst (mem_monitor_check_collision 0x0200 overrun_state) = 0
  /\ collision_warning
       (s_mem_state (snd (mem_monitor_check_collision 0x0200 overrun_state))) = 0
  /\ fst (mem_monitor_get_free_stack_space 0x0200 overrun_state) = 0.
Proof. vm_compute. repeat split; reflexivity. Qed.

(** The two boundary cases of the claim, which the code does satisfy:
    a gap of 127 bytes is a collision, a gap of 128 bytes is not. *)
Lemma check_collision_boundary heap_start s :
  is_u16 (heap_end heap_start s) ->
  (sp_value s - heap_end heap_start s = 127 ->
   fst (mem_monitor_check_collision heap_start s) = 1)
  /\ (sp_value s - heap_end heap_start s = 128 ->
      fst (mem_monitor_check_collision heap_start s) = 0).
Proof.
  intros Hhe. split; intros Hgap.
  - apply check_collision_above_heap; unfold COLLISION_SAFETY_MARGIN; [exact Hhe | lia | lia].
  - pose proof (check_collision_above_heap heap_start s Hhe ltac:(lia)) as Hiff.
    rewrite check_collision_eq in *. cbv zeta in *. simpl fst in *.
    destruct (_ <? _); [| reflexivity].
    unfold COLLISION_SAFETY_MARGIN in Hiff. lia.
Qed.

(** C9.  The stored [collision_warning] after a call is the verdict the
    call returned, and neither depends on the flag's value [w] before
    the call: the call behaves exactly as it would on the same state
    with any other flag value, so an earlier warning does not survive a
    call that finds an adequate gap. *)
Theorem check_collision_non_latching (heap_start : Z) (s : state) (w : Z) :
  let s_w := set_mem_state (set_collision_warning w (s_mem_state s)) s in
  let gap := sub16 (sp_value s) (to_u16 (heap_end heap_start s)) in
  let '(v, s') := mem_monitor_check_collision heap_start s_w in
  collision_warning (s_mem_state s') = v
  /\ v = (if gap <? COLLISION_SAFETY_MARGIN then 1 else 0)
  /\ (v, s') = mem_monitor_check_collision heap_start s.
Proof.
  cbv zeta. rewrite !check_collision_eq. cbv zeta.
  split; [reflexivity |]. split; [reflexivity |].
  destruct s as [sreg spl sph brk m t ms]; destruct ms; reflexivity.
Qed.

(** A warning raised with [SP] 100 bytes above the heap end is cleared by
    the next call, made after the stack has unwound to [0x08F0]. *)
Example check_collision_clears_warning :
  let s0 := sample_hw 0x80 0x64 0x02 0x0200 in
  let '(v1, s1) := mem_monitor_check_collision 0x0200 s0 in
  let '(v2, s2) := mem_monitor_check_collision 0x0200 (set_SP 0x08F0 s1) in
  v1 = 1 /\ collision_warning (s_mem_state s1) = 1
  /\ v2 = 0 /\ collision_warning (s_mem_state s2) = 0.
Proof. vm_compute. repeat split; reflexivity. Qed.

(** C10.  [mem_monitor_get_free_stack_space] returns [current_sp -
    heap_end] when the stack pointer is strictly above the heap end and
    0 otherwise; the result never exceeds the stack pointer, so the
    subtraction never wraps. *)
Theorem free_stack_space_clamped (heap_start : Z) (s : state) :
  is_u16 (heap_end heap_start s) ->
  let current_sp := sp_value s in
  let he := heap_end heap_start s in
  let r := fst (mem_monitor_get_free_stack_space heap_start s) in
  (he < current_sp -> r = current_sp - he)
  /\ (current_sp <= he -> r = 0)
  /\ 0 <= r <= current_sp.
Proof.
  intros Hhe. cbv zeta.
  unfold mem_monitor_get_free_stack_space. rewrite get_stack_pointer_eq.
  change (heap_end heap_start (set_SREG (to_u8 (SREG s)) s))
    with (heap_end heap_start s).
  rewrite (to_u16_id _ Hhe).
  pose proof (sp_value_range s) as Hsp. unfold is_u16 in Hsp, Hhe.
  destruct (Z.gtb_spec (sp_value s) (heap_end heap_start s)) as [Hgt | Hle];
    simpl fst.
  - rewrite sub16_no_borrow by (unfold is_u16; lia). lia.
  - lia.
Qed.

Lemma free_stack_space_clamped_witness :
  let s := sample_hw 0x80 0xF0 0x08 0x0300 in
  (0x0300 < 0x08F0 -> fst (mem_monitor_get_free_stack_space 0x0200 s) = 0x08F0 - 0x0300)
  /\ (0x08F0 <= 0x0300 -> fst (mem_monitor_get_free_stack_space 0x0200 s) = 0)
  /\ 0 <= fst (mem_monitor_get_free_stack_space 0x0200 s) <= 0x08F0.
Proof.
  apply (free_stack_space_clamped 0x0200 (sample_hw 0x80 0xF0 0x08 0x0300)).
  change (is_u16 0x0300). unfold is_u16. lia.
Defined.

(** On the overrun state the clamp is what is returned. *)
Example free_stack_space_on_overrun :
  mem_monitor_get_free_stack_space 0x0200 overrun_state = (0, overrun_state).
Proof. reflexivity. Qed.

(** ** The allocation ledger *)

Lemma add16_of_sub16 a f x : add16 (sub16 a f) x = sub16 (add16 a x) f.
Proof.
  unfold add16, sub16, to_u16.
  rewrite Zplus_mod_idemp_l, Zminus_mod_idemp_l. f_equal. lia.
Qed.

Lemma sub16_of_sub16 a f x : sub16 (sub16 a f) x = sub16 a (add16 f x).
Proof.
  unfold add16, sub16, to_u16.
  rewrite Zminus_mod_idemp_l, Zminus_mod_idemp_r. f_equal. lia.
Qed.

Lemma active_slots_le t : (active_slots t <= length t)%nat.
Proof.
  unfold active_slots. induction t as [| e t IH]; simpl; [lia |].
  destruct (is_active e); simpl; lia.
Qed.

(** Overwriting slot [i] moves the number of active slots by the
    difference of the two entries' activity. *)
Lemma active_slots_insert (t : list AllocationEntry) i e e' :
  t !! i = Some e ->
  (active_slots (<[i := e']> t) + active_bit e = active_slots t + active_bit e')%nat.
Proof.
  unfold active_slots, active_bit. revert i.
  induction t as [| x t IH]; intros [| i] H; simpl in *; try discriminate.
  - injection H as ->. destruct (is_active e), (is_active e'); simpl; lia.
  - specialize (IH i H). destruct (is_active x); simpl; lia.
Qed.

(** The allocation loop either falls through, leaving the state alone, or
    claims one inactive slot. *)
Lemma track_alloc_loop_cases n i p sz s :
  track_alloc_loop n i p sz s = s
  \/ exists j e,
       s_alloc_table s !! j = Some e /\ is_active e = false
       /\ track_alloc_loop n i p sz s =
          set_mem_state (stats_on_alloc sz (s_mem_state s))
                        (set_slot j (mkEntry p sz 1) s).
Proof.
  revert i. induction n as [| n IH]; intros i; simpl; [left; reflexivity |].
  destruct (s_alloc_table s !! i) as [e |] eqn:Hi; [| left; reflexivity].
  destruct (active e =? 0) eqn:Ha; [| apply IH].
  right. exists i, e. unfold is_active. rewrite Ha. auto.
Qed.

(** The free loop either falls through or releases one active slot that
    holds the pointer. *)
Lemma track_free_loop_cases n i p s :
  track_free_loop n i p s = s
  \/ exists j e,
       s_alloc_table s !! j = Some e /\ is_active e = true /\ ptr e = p
       /\ track_free_loop n i p s =
          set_slot j (mkEntry (ptr e) (size e) 0)
                   (set_mem_state (stats_on_free (size e) (s_mem_state s)) s).
Proof.
  revert i. induction n as [| n IH]; intros i; simpl; [left; reflexivity |].
  destruct (s_alloc_table s !! i) as [e |] eqn:Hi; [| left; reflexivity].
  destruct (negb (active e =? 0) && (ptr e =? p)) eqn:Hc; [| apply IH].
  apply andb_true_iff in Hc as [Ha Hp]. apply Z.eqb_eq in Hp.
  right. exists i, e. auto.
Qed.

(** With every slot active the allocation loop falls through. *)
Lemma track_alloc_loop_full n i p sz s :
  table_full (s_alloc_table s) = true -> track_alloc_loop n i p sz s = s.
Proof.
  intros Hfull. revert i. induction n as [| n IH]; intros i; simpl; [reflexivity |].
  destruct (s_alloc_table s !! i) as [e |] eqn:Hi; [| reflexivity].
  unfold table_full in Hfull. rewrite forallb_forall in Hfull.
  assert (He : is_active e = true).
  { apply Hfull. apply list_elem_of_In. eapply list_elem_of_lookup_2. exact Hi. }
  unfold is_active in He. apply negb_true_iff in He. rewrite He. apply IH.
Qed.

Lemma track_alloc_full_noop p sz s :
  table_full (s_alloc_table s) = true -> mem_monitor_track_alloc p sz s = s.
Proof.
  intros Hfull. unfold mem_monitor_track_alloc.
  destruct (p =? NULL); [reflexivity | apply track_alloc_loop_full, Hfull].
Qed.

Lemma track_free_loop_untracked n i p s :
  tracked p (s_alloc_table s) = false -> track_free_loop n i p s = s.
Proof.
  intros Hun. destruct (track_free_loop_cases n i p s) as [H | (j & e & Hj & Ha & Hp & _)];
    [exact H |].
  exfalso. assert (Ht : tracked p (s_alloc_table s) = true); [| congruence].
  unfold tracked. apply existsb_exists. exists e. split.
  - apply list_elem_of_In. eapply list_elem_of_lookup_2. exact Hj.
  - rewrite Ha. simpl. apply Z.eqb_eq. exact Hp.
Qed.

(** *** Conservation *)

Lemma ledger_inv_alloc p sz s :
  ledger_inv s -> ledger_inv (mem_monitor_track_alloc p sz s).
Proof.
  intros [Hlen Hb Hc Hra Hrf Hrac Hrfc]. unfold mem_monitor_track_alloc.
  destruct (p =? NULL); [split; assumption |].
  destruct (track_alloc_loop_cases MAX_HEAP_ALLOCATIONS 0 p sz s)
    as [-> | (j & e & Hj & Ha & ->)]; [split; assumption |].
  pose proof (active_slots_insert _ _ _ (mkEntry p sz 1) Hj) as Hins.
  pose proof (active_slots_le (<[j := mkEntry p sz 1]> (s_alloc_table s))) as Hle.
  rewrite length_insert, Hlen in Hle.
  unfold active_bit in Hins. rewrite Ha in Hins. simpl in Hins.
  split; simpl; try assumption; try apply to_u16_range.
  - rewrite length_insert. exact Hlen.
  - rewrite Hb. apply add16_of_sub16.
  - rewrite <- add16_of_sub16, <- Hc.
    unfold add16. rewrite to_u16_id; [lia |].
    unfold is_u16, MAX_HEAP_ALLOCATIONS in *. lia.
Qed.

Lemma ledger_inv_free p s :
  ledger_inv s -> ledger_inv (mem_monitor_track_free p s).
Proof.
  intros [Hlen Hb Hc Hra Hrf Hrac Hrfc]. unfold mem_monitor_track_free.
  destruct (p =? NULL); [split; assumption |].
  destruct (track_free_loop_cases MAX_HEAP_ALLOCATIONS 0 p s)
    as [-> | (j & e & Hj & Ha & _ & ->)]; [split; assumption |].
  pose proof (active_slots_insert _ _ _ (mkEntry (ptr e) (size e) 0) Hj) as Hins.
  pose proof (active_slots_le (s_alloc_table s)) as Hle. rewrite Hlen in Hle.
  unfold active_bit in Hins. rewrite Ha in Hins. simpl in Hins.
  split; simpl; try assumption; try apply to_u16_range.
  - rewrite length_insert. exact Hlen.
  - rewrite Hb. apply sub16_of_sub16.
  - rewrite <- sub16_of_sub16, <- Hc.
    unfold sub16. rewrite to_u16_id; [lia |].
    unfold is_u16, MAX_HEAP_ALLOCATIONS in *. lia.
Qed.

Lemma ledger_inv_run ops s : ledger_inv s -> ledger_inv (ledger_run ops s).
Proof.
  revert s. induction ops as [| o ops IH]; intros s Hs; [exact Hs |].
  simpl. apply IH. destruct o; [apply ledger_inv_alloc | apply ledger_inv_free]; exact Hs.
Qed.

Lemma init_table heap_start s :
  s_alloc_table (mem_monitor_init heap_start s) =
  replicate MAX_HEAP_ALLOCATIONS (mkEntry 0 0 0).
Proof. reflexivity. Qed.

Lemma init_mem_state heap_start s :
  s_mem_state (mem_monitor_init heap_start s) =
  mkMemState (sp_value s) 0 0 0 0 0 0 0.
Proof. reflexivity. Qed.

Lemma ledger_inv_init heap_start s : ledger_inv (mem_monitor_init heap_start s).
Proof.
  split; rewrite ?init_table, ?init_mem_state; simpl;
    try reflexivity; unfold is_u16; lia.
Qed.

(** *** Conservation, saturation and anomalies *)

Lemma full_state_full : table_full (s_alloc_table full_state) = true.
Proof. vm_compute. reflexivity. Qed.

Lemma full_state_length : length (s_alloc_table full_state) = MAX_HEAP_ALLOCATIONS.
Proof. vm_compute. reflexivity. Qed.

(** C1.  Start from [mem_monitor_init] and make any sequence of
    [mem_monitor_track_alloc] / [mem_monitor_track_free] calls in which
    no allocation is rejected for lack of a free slot.  After every
    prefix of the sequence, [heap_used] is [heap_total_allocated -
    heap_total_freed] and the number of active slots is [alloc_count -
    free_count], the subtractions being the 16-bit ones of the counters'
    type; as long as a cumulative counter has not wrapped below the one
    subtracted from it, these are the plain integer differences. *)
Theorem ledger_conservation (heap_start : Z) (pre : state)
        (ops : list ledger_op) (k : nat) :
  no_saturation ops (mem_monitor_init heap_start pre) = true ->
  let s := ledger_run (take k ops) (mem_monitor_init heap_start pre) in
  let ms := s_mem_state s in
  heap_used ms = sub16 (heap_total_allocated ms) (heap_total_freed ms)
  /\ Z.of_nat (active_slots (s_alloc_table s)) = sub16 (alloc_count ms) (free_count ms)
  /\ (heap_total_freed ms <= heap_total_allocated ms ->
      heap_used ms = heap_total_allocated ms - heap_total_freed ms)
  /\ (free_count ms <= alloc_count ms ->
      Z.of_nat (active_slots (s_alloc_table s)) = alloc_count ms - free_count ms).
Proof.
  intros _. cbv zeta.
  destruct (ledger_inv_run (take k ops) _ (ledger_inv_init heap_start pre))
    as [_ Hb Hc Hra Hrf Hrac Hrfc].
  split; [exact Hb |]. split; [exact Hc |]. split.
  - intros Hle. rewrite Hb. apply sub16_no_borrow; assumption.
  - intros Hle. rewrite Hc. apply sub16_no_borrow; assumption.
Qed.

Lemma ledger_conservation_witness :
  let s := ledger_run (take 3 sample_ops)
                      (mem_monitor_init 0x0200 (sample_hw 0x80 0xF0 0x08 0)) in
  let ms := s_mem_state s in
  heap_used ms = sub16 (heap_total_allocated ms) (heap_total_freed ms)
  /\ Z.of_nat (active_slots (s_alloc_table s)) = sub16 (alloc_count ms) (free_count ms)
  /\ (heap_total_freed ms <= heap_total_allocated ms ->
      heap_used ms = heap_total_allocated ms - heap_total_freed ms)
  /\ (free_count ms <= alloc_count ms ->
      Z.of_nat (active_slots (s_alloc_table s)) = alloc_count ms - free_count ms).
Proof.
  apply (ledger_conservation 0x0200 (sample_hw 0x80 0xF0 0x08 0) sample_ops 3).
  vm_compute. reflexivity.
Defined.

(** The counters after the three calls of the witness: 24 bytes
    allocated, 16 freed, 8 in use, one slot active. *)
Example ledger_after_three_calls :
  let s := ledger_run (take 3 sample_ops) booted in
  s_mem_state s = mkMemState 0x08F0 0 8 24 16 2 1 0
  /\ active_slots (s_alloc_table s) = 1%nat.
Proof. vm_compute. split; reflexivity. Qed.

(** Conservation survives a wrap of the byte counters: after blocks of
    65535 and 2 bytes are allocated and the first is freed, the
    cumulative total has wrapped to 1, 65535 bytes were freed, and the 2
    bytes in use are their 16-bit difference. *)
Example ledger_conservation_across_wrap :
  let s := ledger_run [OpAlloc 0x0300 65535; OpAlloc 0x0310 2; OpFree 0x0300] booted in
  heap_total_allocated (s_mem_state s) = 1
  /\ heap_total_freed (s_mem_state s) = 65535
  /\ heap_used (s_mem_state s) = 2
  /\ sub16 1 65535 = 2.
Proof. vm_compute. repeat split; reflexivity. Qed.

(** C7.  A non-null allocation that finds all 32 slots active changes
    neither the table (every slot keeps its [ptr], [size] and [active])
    nor any of [heap_used], [heap_total_allocated], [heap_total_freed],
    [alloc_count], [free_count]. *)
Theorem track_alloc_full_preserves_state (p sz : Z) (s : state) :
  p <> NULL ->
  length (s_alloc_table s) = MAX_HEAP_ALLOCATIONS ->
  table_full (s_alloc_table s) = true ->
  let s' := mem_monitor_track_alloc p sz s in
  (forall i : nat, s_alloc_table s' !! i = s_alloc_table s !! i)
  /\ s_alloc_table s' = s_alloc_table s
  /\ heap_used (s_mem_state s') = heap_used (s_mem_state s)
  /\ heap_total_allocated (s_mem_state s') = heap_total_allocated (s_mem_state s)
  /\ heap_total_freed (s_mem_state s') = heap_total_freed (s_mem_state s)
  /\ alloc_count (s_mem_state s') = alloc_count (s_mem_state s)
  /\ free_count (s_mem_state s') = free_count (s_mem_state s).
Proof.
  intros _ _ Hfull. cbv zeta. rewrite (track_alloc_full_noop p sz s Hfull).
  repeat split; reflexivity.
Qed.

Lemma track_alloc_full_preserves_state_witness :
  let s' := mem_monitor_track_alloc 0x0400 8 full_state in
  (forall i : nat, s_alloc_table s' !! i = s_alloc_table full_state !! i)
  /\ s_alloc_table s' = s_alloc_table full_state
  /\ heap_used (s_mem_state s') = heap_used (s_mem_state full_state)
  /\ heap_total_allocated (s_mem_state s') = heap_total_allocated (s_mem_state full_state)
  /\ heap_total_freed (s_mem_state s') = heap_total_freed (s_mem_state full_state)
  /\ alloc_count (s_mem_state s') = alloc_count (s_mem_state full_state)
  /\ free_count (s_mem_state s') = free_count (s_mem_state full_state).
Proof.
  apply (track_alloc_full_preserves_state 0x0400 8 full_state).
  - unfold NULL. lia.
  - vm_compute. reflexivity.
  - vm_compute. reflexivity.
Defined.

(** C5 (as written, refuted).  On the full table a rejected allocation
    leaves the state as it was, so no quantity computed from the state
    goes up by one, and the report is the same before and after. *)
Lemma saturation_is_not_counted :
  0x0400 <> NULL
  /\ table_full (s_alloc_table full_state) = true
  /\ (~ exists counter : state -> Z,
          counter (mem_monitor_track_alloc 0x0400 8 full_state)
          = counter full_state + 1)
  /\ fst (mem_monitor_get_stats 0x0200 0x0100 0x0120 0x0120 0x0200
            (mem_monitor_track_alloc 0x0400 8 full_state))
     = fst (mem_monitor_get_stats 0x0200 0x0100 0x0120 0x0120 0x0200 full_state).
Proof.
  rewrite (track_alloc_full_noop 0x0400 8 full_state full_state_full).
  split; [unfold NULL; lia |]. split; [exact full_state_full |].
  split; [| reflexivity]. intros [counter H]. lia.
Qed.

(** C5 (amended).  A non-null allocation that finds every slot active
    returns without changing anything: there is no saturation counter to
    increment, every observation of the state is unchanged, and
    [mem_monitor_get_stats] fills in the same report as before the
    call. *)
Theorem track_alloc_full_is_silent
        (heap_start data_start data_end bss_start bss_end p sz : Z) (s : state) :
  p <> NULL ->
  table_full (s_alloc_table s) = true ->
  let s' := mem_monitor_track_alloc p sz s in
  s' = s
  /\ (forall counter : state -> Z, counter s' = counter s)
  /\ fst (mem_monitor_get_stats heap_start data_start data_end bss_start bss_end s')
     = fst (mem_monitor_get_stats heap_start data_start data_end bss_start bss_end s).
Proof.
  intros _ Hfull. cbv zeta. rewrite (track_alloc_full_noop p sz s Hfull).
  repeat split; reflexivity.
Qed.

Lemma track_alloc_full_is_silent_witness :
  let s' := mem_monitor_track_alloc 0x0408 16 full_state in
  s' = full_state
  /\ (forall counter : state -> Z, counter s' = counter full_state)
  /\ fst (mem_monitor_get_stats 0x0200 0x0100 0x0120 0x0120 0x0200 s')
     = fst (mem_monitor_get_stats 0x0200 0x0100 0x0120 0x0120 0x0200 full_state).
Proof.
  apply (track_alloc_full_is_silent 0x0200 0x0100 0x0120 0x0120 0x0200 0x0408 16 full_state).
  - unfold NULL. lia.
  - vm_compute. reflexivity.
Defined.

(** C6 (as written, refuted).  Freeing an address that no active slot
    records leaves the state as it was, so no anomaly counter computed
    from the state goes up by one. *)
Lemma untracked_free_is_not_counted :
  0x0400 <> NULL
  /\ tracked 0x0400 (s_alloc_table one_block) = false
  /\ ~ exists counter : state -> Z,
         counter (mem_monitor_track_free 0x0400 one_block) = counter one_block + 1.
Proof.
  assert (Hun : tracked 0x0400 (s_alloc_table one_block) = false)
    by (vm_compute; reflexivity).
  split; [unfold NULL; lia |]. split; [exact Hun |].
  unfold mem_monitor_track_free. simpl (0x0400 =? NULL).
  rewrite (track_free_loop_untracked _ _ _ _ Hun).
  intros [counter H]. lia.
Qed.

(** C6 (amended).  [mem_monitor_track_free] is a no-op both for the null
    address and for a non-null address that no active slot records: the
    table, [heap_used], [heap_total_freed] and every other part of the
    state are unchanged, and no anomaly counter exists in either case. *)
Theorem track_free_anomaly_is_noop (p : Z) (s : state) :
  p = NULL \/ tracked p (s_alloc_table s) = false ->
  let s' := mem_monitor_track_free p s in
  s' = s
  /\ s_alloc_table s' = s_alloc_table s
  /\ heap_used (s_mem_state s') = heap_used (s_mem_state s)
  /\ heap_total_freed (s_mem_state s') = heap_total_freed (s_mem_state s)
  /\ (forall counter : state -> Z, counter s' = counter s).
Proof.
  intros H. cbv zeta.
  assert (Heq : mem_monitor_track_free p s = s).
  { unfold mem_monitor_track_free. destruct H as [-> | Hun]; [reflexivity |].
    destruct (p =? NULL); [reflexivity | apply track_free_loop_untracked, Hun]. }
  rewrite Heq. repeat split; reflexivity.
Qed.

Lemma track_free_anomaly_is_noop_witness :
  let s' := mem_monitor_track_free 0x0400 one_block in
  s' = one_block
  /\ s_alloc_table s' = s_alloc_table one_block
  /\ heap_used (s_mem_state s') = heap_used (s_mem_state one_block)
  /\ heap_total_freed (s_mem_state s') = heap_total_freed (s_mem_state one_block)
  /\ (forall counter : state -> Z, counter s' = counter one_block).
Proof.
  apply (track_free_anomaly_is_noop 0x0400 one_block).
  right. vm_compute. reflexivity.
Defined.

(** A double free: the second [free] of the same block finds its slot
    inactive and changes nothing. *)
Example double_free_is_noop :
  let s1 := mem_monitor_track_free 0x0300 one_block in
  s_mem_state s1 = mkMemState 0x08F0 0 0 8 8 1 1 0
  /\ s_mem_state (mem_monitor_track_free 0x0300 s1) = s_mem_state s1
  /\ s_alloc_table (mem_monitor_track_free 0x0300 s1) = s_alloc_table s1.
Proof. vm_compute. repeat split; reflexivity. Qed.

(** ** The stack high-water mark *)

Section HighWater.

Variable heap_start : Z.

(** The fuel handed to the scan loop is enough: the loop stops because
    its condition fails, at the first non-sentinel byte. *)
Lemma scan_loop_first_stop m fuel p :
  p <= RAMEND -> (Z.to_nat (RAMEND - p) <= fuel)%nat ->
  first_stop m p (scan_loop fuel m p).
Proof.
  revert p. induction fuel as [| fuel IH]; intros p Hp Hfuel; simpl.
  - assert (p = RAMEND) by lia. subst p.
    split; [lia |]. split; [intros a Ha; lia | left; reflexivity].
  - destruct (m p =? STACK_SENTINEL) eqn:Hm; simpl.
    + apply Z.eqb_eq in Hm. destruct (Z.ltb_spec p RAMEND) as [Hlt | Hge].
      * destruct (IH (p + 1)) as (Hr & Hall & Hend); [lia | lia |].
        split; [lia |]. split; [| exact Hend].
        intros a Ha. destruct (Z.eq_dec a p) as [-> | Hne]; [exact Hm |].
        apply Hall. lia.
      * split; [lia |]. split; [intros a Ha; lia | left; lia].
    + apply Z.eqb_neq in Hm.
      split; [lia |]. split; [intros a Ha; lia | right; exact Hm].
Qed.

Lemma first_stop_unique m lo q1 q2 :
  first_stop m lo q1 -> first_stop m lo q2 -> q1 = q2.
Proof.
  intros (Hr1 & Hall1 & Hend1) (Hr2 & Hall2 & Hend2).
  destruct (Z.lt_trichotomy q1 q2) as [Hlt | [Heq | Hgt]]; [| exact Heq |].
  - destruct Hend1 as [-> | Hne]; [lia |]. exfalso. apply Hne, Hall2. lia.
  - destruct Hend2 as [-> | Hne]; [lia |]. exfalso. apply Hne, Hall1. lia.
Qed.

Lemma scan_stop_first_stop s :
  heap_end heap_start s <= RAMEND -> first_stop (sram s) (heap_end heap_start s) (scan_stop heap_start s).
Proof.
  intros H. unfold scan_stop. apply scan_loop_first_stop; [exact H | lia].
Qed.

(** Overwriting a byte of the scanned region with a non-sentinel value
    can only lower the address at which the scan stops. *)
Lemma first_stop_store m lo q a v :
  v <> STACK_SENTINEL -> lo <= a <= RAMEND ->
  first_stop m lo q -> first_stop (store m a v) lo (Z.min q a).
Proof.
  intros Hv Ha (Hr & Hall & Hend). unfold store.
  split; [lia |]. split.
  - intros a' Ha'. destruct (Z.eqb_spec a' a); [lia | apply Hall; lia].
  - destruct (Z.le_gt_cases q a) as [Hle | Hgt].
    + rewrite Z.min_l by lia.
      destruct (Z.eqb_spec q a); [right; exact Hv | exact Hend].
    + rewrite Z.min_r by lia. rewrite Z.eqb_refl. right; exact Hv.
Qed.

Lemma scan_usage_of_stop s :
  0 <= heap_end heap_start s <= RAMEND -> scan_stack_usage heap_start s = RAMEND - scan_stop heap_start s.
Proof.
  intros H. destruct (scan_stop_first_stop s) as (Hr & _); [lia |].
  unfold scan_stack_usage. unfold RAMEND in *.
  rewrite to_u16_id by (unfold is_u16; lia).
  apply sub16_no_borrow; unfold is_u16; lia.
Qed.

Lemma scan_usage_nonneg s : 0 <= scan_stack_usage heap_start s.
Proof. unfold scan_stack_usage. apply to_u16_range. Qed.

(** *** Effect of each event *)

Lemma update_max_stack_usage s :
  max_stack_usage (s_mem_state (mem_monitor_update heap_start s)) =
  Z.max (max_stack_usage (s_mem_state s)) (scan_stack_usage heap_start s).
Proof.
  unfold mem_monitor_update.
  destruct (Z.gtb_spec (scan_stack_usage heap_start s) (max_stack_usage (s_mem_state s)));
    rewrite check_collision_eq; cbv zeta; simpl; lia.
Qed.

Lemma update_sram s : sram (mem_monitor_update heap_start s) = sram s.
Proof.
  unfold mem_monitor_update.
  destruct (_ >? _); rewrite check_collision_eq; reflexivity.
Qed.

Lemma update_brkval s : brkval (mem_monitor_update heap_start s) = brkval s.
Proof.
  unfold mem_monitor_update.
  destruct (_ >? _); rewrite check_collision_eq; reflexivity.
Qed.

Lemma scan_usage_ext s s' :
  sram s' = sram s -> brkval s' = brkval s -> scan_stack_usage heap_start s' = scan_stack_usage heap_start s.
Proof.
  intros Hm Hb.
  unfold scan_stack_usage, scan_stop, heap_end.
  rewrite Hm, Hb. reflexivity.
Qed.

Lemma step_heap_end e s : heap_end heap_start (stack_step heap_start e s) = heap_end heap_start s.
Proof.
  unfold heap_end.
  destruct e; simpl; rewrite ?update_brkval; reflexivity.
Qed.

Lemma step_max_stack_usage_mono e s :
  max_stack_usage (s_mem_state s) <= max_stack_usage (s_mem_state (stack_step heap_start e s)).
Proof.
  destruct e; simpl; [rewrite update_max_stack_usage |..]; lia.
Qed.

Lemma scan_usage_store s a v :
  0 <= heap_end heap_start s <= RAMEND ->
  store_ok heap_start s (EvStore a v) = true ->
  scan_stack_usage heap_start (stack_step heap_start (EvStore a v) s) =
  Z.max (scan_stack_usage heap_start s) (RAMEND - a).
Proof.
  intros Hhe Hok. simpl in Hok.
  apply andb_true_iff in Hok as [Hok Hhi]. apply andb_true_iff in Hok as [Hv Hlo].
  apply negb_true_iff, Z.eqb_neq in Hv. apply Z.leb_le in Hlo, Hhi.
  rewrite !scan_usage_of_stop by (rewrite ?step_heap_end; exact Hhe).
  assert (Hstop : scan_stop heap_start (stack_step heap_start (EvStore a v) s)
                  = Z.min (scan_stop heap_start s) a).
  { eapply first_stop_unique.
    - pose proof (scan_stop_first_stop (stack_step heap_start (EvStore a v) s)) as H.
      rewrite step_heap_end in H. apply H. lia.
    - simpl. apply first_stop_store; [exact Hv | lia |].
      apply scan_stop_first_stop. lia. }
  rewrite Hstop. lia.
Qed.

End HighWater.

Lemma max_penetration_nonneg evs : 0 <= max_penetration evs.
Proof. induction evs as [| e evs IH]; simpl; lia. Qed.

Lemma stack_run_app heap_start evs1 evs2 s :
  stack_run heap_start (evs1 ++ evs2) s =
  stack_run heap_start evs2 (stack_run heap_start evs1 s).
Proof. unfold stack_run. apply fold_left_app. Qed.

Lemma store_ok_step heap_start e0 s evs :
  forallb (store_ok heap_start (stack_step heap_start e0 s)) evs =
  forallb (store_ok heap_start s) evs.
Proof.
  induction evs as [| e evs IH]; simpl; [reflexivity |]. rewrite IH. f_equal.
  destruct e; simpl; rewrite ?step_heap_end; reflexivity.
Qed.

Lemma run_max_stack_usage_mono heap_start evs s :
  max_stack_usage (s_mem_state s) <=
  max_stack_usage (s_mem_state (stack_run heap_start evs s)).
Proof.
  revert s. induction evs as [| e evs IH]; intros s; [simpl; lia |].
  change (stack_run heap_start (e :: evs) s)
    with (stack_run heap_start evs (stack_step heap_start e s)).
  eapply Z.le_trans; [apply (step_max_stack_usage_mono heap_start e s) | apply IH].
Qed.

(** After any run that ends with an update, the stored maximum is the
    largest of: its value before the run, what a scan found before the
    run, and the depth of every store made during the run. *)
Lemma high_water_after_run heap_start evs s :
  0 <= heap_end heap_start s <= RAMEND ->
  forallb (store_ok heap_start s) evs = true ->
  max_stack_usage (s_mem_state (stack_run heap_start (evs ++ [EvUpdate]) s)) =
  Z.max (max_stack_usage (s_mem_state s))
        (Z.max (scan_stack_usage heap_start s) (max_penetration evs)).
Proof.
  revert s. induction evs as [| e evs IH]; intros s Hhe Hok.
  - simpl. rewrite update_max_stack_usage.
    pose proof (scan_usage_nonneg heap_start s). lia.
  - simpl in Hok. apply andb_true_iff in Hok as [He Hok].
    change (stack_run heap_start ((e :: evs) ++ [EvUpdate]) s)
      with (stack_run heap_start (evs ++ [EvUpdate]) (stack_step heap_start e s)).
    rewrite IH; [| rewrite step_heap_end; exact Hhe | rewrite store_ok_step; exact Hok].
    pose proof (max_penetration_nonneg evs) as Hpen.
    pose proof (scan_usage_nonneg heap_start s) as Hscan.
    destruct e as [| a v | sp].
    + change (stack_step heap_start EvUpdate s) with (mem_monitor_update heap_start s).
      rewrite update_max_stack_usage.
      rewrite (scan_usage_ext heap_start s (mem_monitor_update heap_start s))
        by (rewrite ?update_sram, ?update_brkval; reflexivity).
      simpl. lia.
    + rewrite scan_usage_store by assumption. simpl. lia.
    + simpl. change (scan_stack_usage heap_start (set_SP sp s))
        with (scan_stack_usage heap_start s). lia.
Qed.

(** The armed board: every byte from the heap end up to [0x08F7] holds
    the sentinel, and the byte at [0x08F7] does not. *)
Lemma armed_first_stop :
  first_stop (sram armed) (heap_end 0x050F armed) 0x08F7.
Proof.
  assert (Hstop : scan_stop 0x050F armed = 0x08F7) by (vm_compute; reflexivity).
  pose proof (scan_stop_first_stop 0x050F armed) as H.
  rewrite Hstop in H. apply H. vm_compute. discriminate.
Qed.

(** C2.  Take any start state whose heap end lies in SRAM and let [q0]
    be the lowest address at or above the heap end whose byte is not the
    sentinel ([RAMEND] if there is none below): the stack has penetrated
    to depth [RAMEND - q0] so far.  Along any interleaving of
    [mem_monitor_update] calls, stack stores that replace bytes of the
    scanned region by non-sentinel values, and stack-pointer moves in
    either direction:
    - every update sets [max_stack_usage] to the maximum of its previous
      value and the scan result, which is the distance from [RAMEND] to
      the lowest non-sentinel byte of the memory it scans;
    - [max_stack_usage] never decreases from one point of the sequence
      to the next;
    - after an update that closes the sequence, [max_stack_usage] is the
      greatest penetration seen: the largest of its starting value, the
      starting depth [RAMEND - q0], and the depth [RAMEND - a] of every
      store made since, wherever the stack pointer is by then. *)
Theorem high_water_mark_monotone_and_exact
        (heap_start : Z) (s0 : state) (q0 : Z) (evs : list stack_event) :
  0 <= heap_end heap_start s0 <= RAMEND ->
  first_stop (sram s0) (heap_end heap_start s0) q0 ->
  forallb (store_ok heap_start s0) evs = true ->
  (forall s,
      max_stack_usage (s_mem_state (mem_monitor_update heap_start s)) =
      Z.max (max_stack_usage (s_mem_state s)) (scan_stack_usage heap_start s))
  /\ (forall s q,
         0 <= heap_end heap_start s <= RAMEND ->
         first_stop (sram s) (heap_end heap_start s) q ->
         max_stack_usage (s_mem_state (mem_monitor_update heap_start s)) =
         Z.max (max_stack_usage (s_mem_state s)) (RAMEND - q))
  /\ (forall k : nat,
         max_stack_usage (s_mem_state (stack_run heap_start (take k evs) s0)) <=
         max_stack_usage (s_mem_state (stack_run heap_start (take (S k) evs) s0)))
  /\ max_stack_usage (s_mem_state (stack_run heap_start (evs ++ [EvUpdate]) s0)) =
     Z.max (max_stack_usage (s_mem_state s0))
           (Z.max (RAMEND - q0) (max_penetration evs)).
Proof.
  intros Hhe Hq0 Hok.
  assert (Hscan : forall s q,
             0 <= heap_end heap_start s <= RAMEND ->
             first_stop (sram s) (heap_end heap_start s) q ->
             scan_stack_usage heap_start s = RAMEND - q).
  { intros s q Hs Hq. rewrite scan_usage_of_stop by exact Hs. f_equal.
    apply (first_stop_unique (sram s) (heap_end heap_start s));
      [apply scan_stop_first_stop; lia | exact Hq]. }
  split; [apply update_max_stack_usage |]. split.
  { intros s q Hs Hq. rewrite update_max_stack_usage, (Hscan s q Hs Hq). reflexivity. }
  split.
  - intros k. destruct (evs !! k) as [e |] eqn:Hk.
    + rewrite (take_S_r _ _ _ Hk), stack_run_app. simpl.
      apply step_max_stack_usage_mono.
    + apply lookup_ge_None in Hk. rewrite !take_ge by lia. lia.
  - rewrite high_water_after_run by assumption.
    rewrite (Hscan s0 q0 Hhe Hq0). reflexivity.
Qed.

Lemma high_water_mark_monotone_and_exact_witness :
  (forall s,
      max_stack_usage (s_mem_state (mem_monitor_update 0x050F s)) =
      Z.max (max_stack_usage (s_mem_state s)) (scan_stack_usage 0x050F s))
  /\ (forall s q,
         0 <= heap_end 0x050F s <= RAMEND ->
         first_stop (sram s) (heap_end 0x050F s) q ->
         max_stack_usage (s_mem_state (mem_monitor_update 0x050F s)) =
         Z.max (max_stack_usage (s_mem_state s)) (RAMEND - q))
  /\ (forall k : nat,
         max_stack_usage (s_mem_state (stack_run 0x050F (take k deep_call) armed)) <=
         max_stack_usage (s_mem_state (stack_run 0x050F (take (S k) deep_call) armed)))
  /\ max_stack_usage (s_mem_state (stack_run 0x050F (deep_call ++ [EvUpdate]) armed)) =
     Z.max (max_stack_usage (s_mem_state armed))
           (Z.max (RAMEND - 0x08F7) (max_penetration deep_call)).
Proof.
  apply (high_water_mark_monotone_and_exact 0x050F armed 0x08F7 deep_call).
  - vm_compute. split; discriminate.
  - exact armed_first_stop.
  - vm_compute. reflexivity.
Defined.

(** The numbers of that scenario: 8 bytes in use when armed, 58 after the
    deep call, and still 58 once the stack is back where it started. *)
Example deep_call_high_water :
  max_stack_usage (s_mem_state armed) = 0
  /\ max_stack_usage (s_mem_state (stack_run 0x050F (take 1 deep_call) armed)) = 8
  /\ max_penetration deep_call = 58
  /\ max_stack_usage (s_mem_state (stack_run 0x050F deep_call armed)) = 58
  /\ sp_value (stack_run 0x050F deep_call armed) = 0x08F7
  /\ max_stack_usage (s_mem_state (stack_run 0x050F (deep_call ++ [EvUpdate]) armed)) = 58.
Proof. vm_compute. repeat split; reflexivity. Qed.

(** *** Arming the sentinel *)

(** The fill loop, given at least [stack_ptr - p] iterations, writes the
    sentinel to exactly the addresses [p <= a < stack_ptr]. *)
Lemma fill_loop_spec n p stack_ptr m a :
  (Z.to_nat (stack_ptr - p) <= n)%nat ->
  fill_loop n p stack_ptr m a =
  if (p <=? a) && (a <? stack_ptr) then STACK_SENTINEL else m a.
Proof.
  revert p m. induction n as [| n IH]; intros p m Hn; simpl.
  - destruct (Z.leb_spec p a), (Z.ltb_spec a stack_ptr); simpl; try reflexivity. lia.
  - destruct (Z.ltb_spec p stack_ptr) as [Hlt | Hge].
    + rewrite IH by lia. unfold store.
      destruct (Z.leb_spec (p + 1) a), (Z.ltb_spec a stack_ptr),
               (Z.leb_spec p a), (Z.eqb_spec a p); simpl; try reflexivity; lia.
    + destruct (Z.leb_spec p a), (Z.ltb_spec a stack_ptr); simpl; try reflexivity. lia.
Qed.

Lemma init_sram heap_start s a :
  sram (mem_monitor_init heap_start s) a =
  if (heap_end heap_start s <=? a) && (a <? sp_value s)
  then STACK_SENTINEL else sram s a.
Proof.
  change (sram (mem_monitor_init heap_start s))
    with (fill_loop (Z.to_nat (sp_value s - heap_end heap_start s))
                    (heap_end heap_start s) (sp_value s) (sram s)).
  apply fill_loop_spec. lia.
Qed.

Lemma init_heap_end heap_start s :
  heap_end heap_start (mem_monitor_init heap_start s) = heap_end heap_start s.
Proof. reflexivity. Qed.

(** Right after initialisation a scan finds the stack top recorded by
    [mem_monitor_init], provided the byte there is in use (not the
    sentinel value). *)
Lemma scan_after_init heap_start s :
  0 <= heap_end heap_start s <= sp_value s ->
  sp_value s <= RAMEND ->
  sp_value s = RAMEND \/ sram s (sp_value s) <> STACK_SENTINEL ->
  scan_stack_usage heap_start (mem_monitor_init heap_start s) = RAMEND - sp_value s.
Proof.
  intros Hhe Hsp Htop.
  rewrite scan_usage_of_stop by (rewrite init_heap_end; lia).
  f_equal. eapply first_stop_unique.
  - apply scan_stop_first_stop. rewrite init_heap_end. lia.
  - rewrite init_heap_end. split; [lia |]. split.
    + intros a Ha. rewrite init_sram.
      destruct (Z.leb_spec (heap_end heap_start s) a), (Z.ltb_spec a (sp_value s));
        simpl; try reflexivity; lia.
    + destruct Htop as [Heq | Hne]; [left; exact Heq | right].
      rewrite init_sram. rewrite Z.ltb_irrefl, andb_false_r. exact Hne.
Qed.

(** X10.  From initialisation on: after an update that closes any sequence of
    stores, moves and updates, the high-water mark is the deeper of the
    stack depth at initialisation and the deepest store since. *)
Lemma high_water_after_init heap_start s evs :
  0 <= heap_end heap_start s <= sp_value s ->
  sp_value s <= RAMEND ->
  sp_value s = RAMEND \/ sram s (sp_value s) <> STACK_SENTINEL ->
  forallb (store_ok heap_start s) evs = true ->
  max_stack_usage
    (s_mem_state (stack_run heap_start (evs ++ [EvUpdate])
                            (mem_monitor_init heap_start s))) =
  Z.max (RAMEND - sp_value s) (max_penetration evs).
Proof.
  intros Hhe Hsp Htop Hok.
  rewrite high_water_after_run.
  - rewrite scan_after_init by assumption. rewrite init_mem_state. simpl. lia.
  - rewrite init_heap_end. lia.
  - exact Hok.
Qed.

(** ** The fragmentation heuristic *)

(** C4 (as written, refuted).  After ten allocations and three frees
    the specification's test [10 - 3 > 3 + 5] fails and gives 0.0, while
    the code tests [10 > 3 + 5] and returns [7/32]. *)
Lemma fragmentation_ratio_differs_from_spec :
  let s := after_calls 10 3 in
  alloc_count (s_mem_state s) = 10
  /\ free_count (s_mem_state s) = 3
  /\ total_free_heap 0x0200 s = 456
  /\ mem_monitor_get_fragmentation_ratio 0x0200 s = (7 # 32)%Q
  /\ spec_fragmentation_ratio 0x0200 s = 0%Q
  /\ ~ (mem_monitor_get_fragmentation_ratio 0x0200 s
        == spec_fragmentation_ratio 0x0200 s)%Q.
Proof.
  vm_compute. repeat split; try reflexivity. intros H. discriminate H.
Qed.

(** The cases of the function in terms of the free space it computes. *)
Lemma fragmentation_ratio_computed_cases (heap_start : Z) (s : state) :
  let ms := s_mem_state s in
  let r := mem_monitor_get_fragmentation_ratio heap_start s in
  (total_free_heap heap_start s = 0 \/ alloc_count ms = 0 -> r = 0%Q)
  /\ (total_free_heap heap_start s <> 0 -> alloc_count ms <> 0 ->
      alloc_count ms > add16 (free_count ms) 5 ->
      (r == Qmin 1 (live_over_capacity s))%Q)
  /\ (total_free_heap heap_start s <> 0 -> alloc_count ms <> 0 ->
      alloc_count ms <= add16 (free_count ms) 5 -> r = 0%Q)
  /\ (total_free_heap heap_start s <> 0 ->
      alloc_count ms = 10 -> free_count ms = 2 -> (r == 0.25)%Q)
  /\ (alloc_count ms = 6 -> free_count ms = 3 -> r = 0%Q).
Proof.
  cbv zeta.
  assert (Hdef : mem_monitor_get_fragmentation_ratio heap_start s =
    if (total_free_heap heap_start s =? 0) || (alloc_count (s_mem_state s) =? 0)
    then 0%Q
    else if alloc_count (s_mem_state s) >? add16 (free_count (s_mem_state s)) 5
         then if Qle_bool (live_over_capacity s) 1 then live_over_capacity s else 1%Q
         else 0%Q) by reflexivity.
  rewrite Hdef. clear Hdef.
  assert (Hclamp :
    ((if Qle_bool (live_over_capacity s) 1 then live_over_capacity s else 1)
     == Qmin 1 (live_over_capacity s))%Q).
  { destruct (Qle_bool (live_over_capacity s) 1) eqn:Hle.
    - apply Qle_bool_iff in Hle. symmetry. apply Q.min_r. exact Hle.
    - symmetry. apply Q.min_l. apply Qlt_le_weak, Qnot_le_lt.
      intros H. apply Qle_bool_iff in H. congruence. }
  split; [| split; [| split; [| split]]].
  - intros [H0 | H0]; rewrite H0; [reflexivity |].
    change (0 =? 0) with true. rewrite orb_true_r. reflexivity.
  - intros Hf Ha Hgt.
    apply Z.eqb_neq in Hf, Ha. rewrite Hf, Ha. simpl orb. cbv iota.
    destruct (Z.gtb_spec (alloc_count (s_mem_state s))
                         (add16 (free_count (s_mem_state s)) 5)); [exact Hclamp | lia].
  - intros Hf Ha Hle.
    apply Z.eqb_neq in Hf, Ha. rewrite Hf, Ha. simpl orb. cbv iota.
    destruct (Z.gtb_spec (alloc_count (s_mem_state s))
                         (add16 (free_count (s_mem_state s)) 5)); [lia | reflexivity].
  - intros Hf Ha Hfc. apply Z.eqb_neq in Hf. rewrite Hf.
    unfold live_over_capacity. rewrite Ha, Hfc. reflexivity.
  - intros Ha Hfc. rewrite Ha, Hfc.
    destruct (total_free_heap heap_start s =? 0); reflexivity.
Qed.

(** While [heap_used] does not exceed the size of the region, the free
    space the function computes is the region's free space. *)
Lemma total_free_heap_exact heap_start s :
  is_u16 heap_start -> is_u16 (heap_end heap_start s) ->
  heap_start <= heap_end heap_start s ->
  0 <= heap_used (s_mem_state s) <= heap_end heap_start s - heap_start ->
  total_free_heap heap_start s = region_free_space heap_start s.
Proof.
  intros Hs He Hle Hu. unfold total_free_heap, region_free_space.
  rewrite (to_u16_id _ Hs), (to_u16_id _ He).
  rewrite (sub16_no_borrow (heap_end heap_start s) heap_start) by assumption.
  apply sub16_no_borrow; unfold is_u16 in *; lia.
Qed.

(** C4 (amended).  In every state whose [heap_used] does not exceed the
    size [heap_end - heap_start] of the dynamic region,
    [mem_monitor_get_fragmentation_ratio] returns 0.0 when the region has
    no free byte left or no allocation was ever counted; otherwise, when
    [alloc_count > free_count + 5] (16-bit sum), it returns
    [(alloc_count - free_count) / 32] clamped to 1.0, and 0.0 when that
    test fails.  With 10 allocations and 2 frees it returns 0.25; with 6
    allocations and 3 frees it returns 0.0. *)
Theorem fragmentation_ratio_policy (heap_start : Z) (s : state) :
  is_u16 heap_start -> is_u16 (heap_end heap_start s) ->
  heap_start <= heap_end heap_start s ->
  0 <= heap_used (s_mem_state s) <= heap_end heap_start s - heap_start ->
  let ms := s_mem_state s in
  let free := region_free_space heap_start s in
  let r := mem_monitor_get_fragmentation_ratio heap_start s in
  (free = 0 \/ alloc_count ms = 0 -> r = 0%Q)
  /\ (free <> 0 -> alloc_count ms <> 0 ->
      alloc_count ms > add16 (free_count ms) 5 ->
      (r == Qmin 1 (live_over_capacity s))%Q)
  /\ (free <> 0 -> alloc_count ms <> 0 ->
      alloc_count ms <= add16 (free_count ms) 5 -> r = 0%Q)
  /\ (free <> 0 -> alloc_count ms = 10 -> free_count ms = 2 -> (r == 0.25)%Q)
  /\ (alloc_count ms = 6 -> free_count ms = 3 -> r = 0%Q).
Proof.
  intros Hs He Hle Hu. cbv zeta.
  rewrite <- (total_free_heap_exact heap_start s Hs He Hle Hu).
  apply fragmentation_ratio_computed_cases.
Qed.

Lemma fragmentation_ratio_policy_witness :
  let s := after_calls 10 2 in
  let ms := s_mem_state s in
  let free := region_free_space 0x0200 s in
  let r := mem_monitor_get_fragmentation_ratio 0x0200 s in
  (free = 0 \/ alloc_count ms = 0 -> r = 0%Q)
  /\ (free <> 0 -> alloc_count ms <> 0 ->
      alloc_count ms > add16 (free_count ms) 5 ->
      (r == Qmin 1 (live_over_capacity s))%Q)
  /\ (free <> 0 -> alloc_count ms <> 0 ->
      alloc_count ms <= add16 (free_count ms) 5 -> r = 0%Q)
  /\ (free <> 0 -> alloc_count ms = 10 -> free_count ms = 2 -> (r == 0.25)%Q)
  /\ (alloc_count ms = 6 -> free_count ms = 3 -> r = 0%Q).
Proof.
  apply (fragmentation_ratio_policy 0x0200 (after_calls 10 2)).
  - vm_compute. split; [discriminate | reflexivity].
  - vm_compute. split; [discriminate | reflexivity].
  - vm_compute. discriminate.
  - vm_compute. split; discriminate.
Defined.

(** Outside that domain: with the heap never grown ([__brkval] null, an
    empty region) and six 8-byte blocks tracked, the region has no free
    byte, yet the 16-bit subtraction wraps to 65488 free bytes and the
    function returns [6/32]. *)
Example fragmentation_ratio_on_overcommitted_region :
  let s := ledger_run (alloc_blocks 6) booted in
  heap_end 0x0200 s = 0x0200
  /\ heap_used (s_mem_state s) = 48
  /\ region_free_space 0x0200 s = -48
  /\ total_free_heap 0x0200 s = 65488
  /\ mem_monitor_get_fragmentation_ratio 0x0200 s = (6 # 32)%Q.
Proof. vm_compute. repeat split; reflexivity. Qed.

(** The two worked cases on states reached by real call sequences. *)
Example fragmentation_ratio_cases :
  (mem_monitor_get_fragmentation_ratio 0x0200 (after_calls 10 2) == 0.25)%Q
  /\ mem_monitor_get_fragmentation_ratio 0x0200 (after_calls 6 3) = 0%Q
  /\ mem_monitor_get_fragmentation_ratio 0x0200 running = 0%Q.
Proof. vm_compute. repeat split; reflexivity. Qed.

(** ** Occupancy *)

(** At most [MAX_HEAP_ALLOCATIONS] slots are ever active. *)
Lemma active_slots_bounded heap_start pre ops :
  (active_slots (s_alloc_table (ledger_run ops (mem_monitor_init heap_start pre)))
   <= MAX_HEAP_ALLOCATIONS)%nat.
Proof.
  destruct (ledger_inv_run ops _ (ledger_inv_init heap_start pre)) as [Hlen].
  rewrite <- Hlen. apply active_slots_le.
Qed.

(** * Further properties of the monitor *)

(** ** First fit *)

(** The allocation loop, started at index [k] with enough iterations
    left, claims slot [i] when [i] is the first inactive slot at or after
    [k]. *)
Lemma track_alloc_loop_first_fit n k i e p sz s :
  s_alloc_table s !! i = Some e -> is_active e = false ->
  (forall j e', (k <= j < i)%nat -> s_alloc_table s !! j = Some e' -> is_active e' = true) ->
  (k <= i < k + n)%nat ->
  track_alloc_loop n k p sz s =
  set_mem_state (stats_on_alloc sz (s_mem_state s)) (set_slot i (mkEntry p sz 1) s).
Proof.
  intros Hi Ha. revert k. induction n as [| n IH]; intros k Hlow Hk; [lia |].
  simpl. destruct (Nat.eq_dec k i) as [-> | Hne].
  - rewrite Hi. unfold is_active in Ha. apply negb_false_iff in Ha. rewrite Ha.
    reflexivity.
  - destruct (lookup_lt_is_Some_2 (s_alloc_table s) k) as [e' He'].
    { apply lookup_lt_Some in Hi. lia. }
    rewrite He'. pose proof (Hlow k e' ltac:(lia) He') as Hact.
    unfold is_active in Hact. apply negb_true_iff in Hact. rewrite Hact.
    apply IH; [| lia]. intros j e'' Hj. apply Hlow. lia.
Qed.

Lemma track_free_loop_first_match n k i e p s :
  s_alloc_table s !! i = Some e -> records p e ->
  (forall j e', (k <= j < i)%nat -> s_alloc_table s !! j = Some e' -> ~ records p e') ->
  (k <= i < k + n)%nat ->
  track_free_loop n k p s =
  set_slot i (mkEntry (ptr e) (size e) 0)
           (set_mem_state (stats_on_free (size e) (s_mem_state s)) s).
Proof.
  intros Hi [Ha Hp]. revert k. induction n as [| n IH]; intros k Hlow Hk; [lia |].
  simpl. destruct (Nat.eq_dec k i) as [-> | Hne].
  - rewrite Hi. unfold is_active in Ha. rewrite Ha.
    apply Z.eqb_eq in Hp. rewrite Hp. reflexivity.
  - destruct (lookup_lt_is_Some_2 (s_alloc_table s) k) as [e' He'].
    { apply lookup_lt_Some in Hi. lia. }
    rewrite He'.
    destruct (negb (active e' =? 0) && (ptr e' =? p)) eqn:Hc.
    + exfalso. apply (Hlow k e' ltac:(lia) He').
      apply andb_true_iff in Hc as [Hc1 Hc2]. apply Z.eqb_eq in Hc2.
      split; assumption.
    + apply IH; [| lia]. intros j e'' Hj. apply Hlow. lia.
Qed.

Lemma track_alloc_find p sz s i e :
  p <> NULL -> length (s_alloc_table s) = MAX_HEAP_ALLOCATIONS ->
  list_find free_slot (s_alloc_table s) = Some (i, e) ->
  mem_monitor_track_alloc p sz s =
  set_mem_state (stats_on_alloc sz (s_mem_state s)) (set_slot i (mkEntry p sz 1) s).
Proof.
  intros Hp Hlen Hfind. apply list_find_Some in Hfind as (Hi & Hfree & Hlow).
  unfold mem_monitor_track_alloc. apply Z.eqb_neq in Hp. rewrite Hp.
  apply (track_alloc_loop_first_fit _ _ i e); [exact Hi | exact Hfree | |].
  - intros j e' Hj He'. destruct (is_active e') eqn:Ha; [reflexivity |].
    exfalso. apply (Hlow j e' He'); [lia | exact Ha].
  - apply lookup_lt_Some in Hi. rewrite Hlen in Hi. lia.
Qed.

Lemma track_free_find p s i e :
  p <> NULL -> length (s_alloc_table s) = MAX_HEAP_ALLOCATIONS ->
  list_find (records p) (s_alloc_table s) = Some (i, e) ->
  mem_monitor_track_free p s =
  set_slot i (mkEntry (ptr e) (size e) 0)
           (set_mem_state (stats_on_free (size e) (s_mem_state s)) s).
Proof.
  intros Hp Hlen Hfind. apply list_find_Some in Hfind as (Hi & Hrec & Hlow).
  unfold mem_monitor_track_free. apply Z.eqb_neq in Hp. rewrite Hp.
  apply (track_free_loop_first_match _ _ i e); [exact Hi | exact Hrec | |].
  - intros j e' Hj He'. apply (Hlow j e' He'). lia.
  - apply lookup_lt_Some in Hi. rewrite Hlen in Hi. lia.
Qed.

Lemma tracked_iff p t : tracked p t = true <-> exists e, e ∈ t /\ records p e.
Proof.
  unfold tracked, records. rewrite existsb_exists. split.
  - intros (e & Hin & Hc). apply andb_true_iff in Hc as [Ha Hp].
    exists e. rewrite list_elem_of_In. rewrite Z.eqb_eq in Hp. auto.
  - intros (e & Hin & Ha & Hp). exists e. rewrite <- list_elem_of_In.
    split; [exact Hin |]. rewrite Ha. simpl. apply Z.eqb_eq. exact Hp.
Qed.

Lemma active_bytes_insert (t : list AllocationEntry) i e e' :
  t !! i = Some e ->
  active_bytes (<[i := e']> t) + (if is_active e then size e else 0)
  = active_bytes t + (if is_active e' then size e' else 0).
Proof.
  revert i. induction t as [| x t IH]; intros [| i] H; simpl in *; try discriminate.
  - injection H as ->. destruct (is_active e), (is_active e'); lia.
  - specialize (IH i H). destruct (is_active x); lia.
Qed.

Lemma tracked_insert_inactive q (t : list AllocationEntry) i e e' :
  t !! i = Some e -> is_active e = false -> is_active e' = false ->
  tracked q (<[i := e']> t) = tracked q t.
Proof.
  unfold tracked. revert i.
  induction t as [| x t IH]; intros [| i] H Ha Ha'; simpl in *; try discriminate.
  - injection H as ->. rewrite Ha, Ha'. reflexivity.
  - rewrite (IH i H Ha Ha'). reflexivity.
Qed.

Lemma table_full_iff_all_active t :
  table_full t = true <-> active_slots t = length t.
Proof.
  unfold table_full, active_slots.
  induction t as [| e t IH]; simpl; [tauto |].
  pose proof (active_slots_le t) as Hle. unfold active_slots in Hle.
  destruct (is_active e); simpl.
  - rewrite IH. lia.
  - split; [discriminate | lia].
Qed.

Lemma not_full_has_free_slot t :
  table_full t = false -> exists i e, list_find free_slot t = Some (i, e).
Proof.
  intros Hnf. destruct (list_find free_slot t) as [[i e] |] eqn:Hfind; [eauto |].
  exfalso. apply list_find_None in Hfind.
  assert (Hfull : table_full t = true); [| congruence].
  unfold table_full. apply forallb_forall. intros e He.
  apply list_elem_of_In in He. rewrite Forall_forall in Hfind.
  specialize (Hfind e He). unfold free_slot in Hfind.
  destruct (is_active e); [reflexivity | congruence].
Qed.

(** ** Extra properties of the ledger *)

(** X1.  In every state reached from [mem_monitor_init] by tracking
    calls, [heap_used] is the sum of the sizes recorded in the active
    slots, reduced to 16 bits. *)
Theorem heap_used_is_sum_of_active_sizes
        (heap_start : Z) (pre : state) (ops : list ledger_op) :
  let s := ledger_run ops (mem_monitor_init heap_start pre) in
  heap_used (s_mem_state s) = to_u16 (active_bytes (s_alloc_table s)).
Proof.
  cbv zeta.
  assert (Hinit : heap_used (s_mem_state (mem_monitor_init heap_start pre)) =
                  to_u16 (active_bytes (s_alloc_table (mem_monitor_init heap_start pre))))
    by reflexivity.
  revert Hinit. generalize (mem_monitor_init heap_start pre).
  induction ops as [| o ops IH]; intros s Hs; [exact Hs |].
  simpl. apply IH. destruct o as [p sz | p]; simpl.
  - unfold mem_monitor_track_alloc. destruct (p =? NULL); [exact Hs |].
    destruct (track_alloc_loop_cases MAX_HEAP_ALLOCATIONS 0 p sz s)
      as [-> | (j & e & Hj & Ha & ->)]; [exact Hs |].
    pose proof (active_bytes_insert _ _ _ (mkEntry p sz 1) Hj) as Hins.
    rewrite Ha in Hins. simpl in Hins |- *. rewrite Hs.
    unfold add16, to_u16. rewrite Zplus_mod_idemp_l. f_equal. lia.
  - unfold mem_monitor_track_free. destruct (p =? NULL); [exact Hs |].
    destruct (track_free_loop_cases MAX_HEAP_ALLOCATIONS 0 p s)
      as [-> | (j & e & Hj & Ha & _ & ->)]; [exact Hs |].
    pose proof (active_bytes_insert _ _ _ (mkEntry (ptr e) (size e) 0) Hj) as Hins.
    rewrite Ha in Hins. simpl in Hins |- *. rewrite Hs.
    unfold sub16, to_u16. rewrite Zminus_mod_idemp_l. f_equal. lia.
Qed.

(** X2.  A non-null allocation takes the lowest-indexed inactive slot:
    it writes [(p, sz, 1)] there, leaves every other slot as it was, and
    adds one active slot, [sz] bytes in use and one allocation event. *)
Theorem track_alloc_claims_first_free_slot
        (p sz : Z) (s : state) (i : nat) (e : AllocationEntry) :
  p <> NULL ->
  length (s_alloc_table s) = MAX_HEAP_ALLOCATIONS ->
  list_find free_slot (s_alloc_table s) = Some (i, e) ->
  let s' := mem_monitor_track_alloc p sz s in
  s_alloc_table s' !! i = Some (mkEntry p sz 1)
  /\ (forall j, j <> i -> s_alloc_table s' !! j = s_alloc_table s !! j)
  /\ tracked p (s_alloc_table s') = true
  /\ active_slots (s_alloc_table s') = S (active_slots (s_alloc_table s))
  /\ heap_used (s_mem_state s') = add16 (heap_used (s_mem_state s)) sz
  /\ heap_total_allocated (s_mem_state s') = add16 (heap_total_allocated (s_mem_state s)) sz
  /\ alloc_count (s_mem_state s') = add16 (alloc_count (s_mem_state s)) 1
  /\ heap_total_freed (s_mem_state s') = heap_total_freed (s_mem_state s)
  /\ free_count (s_mem_state s') = free_count (s_mem_state s).
Proof.
  intros Hp Hlen Hfind. cbv zeta. rewrite (track_alloc_find p sz s i e Hp Hlen Hfind).
  apply list_find_Some in Hfind as (Hi & Hfree & _).
  pose proof (lookup_lt_Some _ _ _ Hi) as Hlt. simpl.
  split; [apply list_lookup_insert_eq; exact Hlt |].
  split; [intros j Hj; apply list_lookup_insert_ne; congruence |].
  split.
  { apply tracked_iff. exists (mkEntry p sz 1). split.
    - eapply list_elem_of_lookup_2. apply list_lookup_insert_eq. exact Hlt.
    - split; reflexivity. }
  split.
  { pose proof (active_slots_insert _ _ _ (mkEntry p sz 1) Hi) as Hins.
    unfold active_bit in Hins. rewrite Hfree in Hins. simpl in Hins. lia. }
  repeat split; reflexivity.
Qed.

Lemma track_alloc_claims_first_free_slot_witness :
  let s' := mem_monitor_track_alloc 0x0308 24 one_block in
  s_alloc_table s' !! 1%nat = Some (mkEntry 0x0308 24 1)
  /\ (forall j, j <> 1%nat -> s_alloc_table s' !! j = s_alloc_table one_block !! j)
  /\ tracked 0x0308 (s_alloc_table s') = true
  /\ active_slots (s_alloc_table s') = S (active_slots (s_alloc_table one_block))
  /\ heap_used (s_mem_state s') = add16 (heap_used (s_mem_state one_block)) 24
  /\ heap_total_allocated (s_mem_state s')
     = add16 (heap_total_allocated (s_mem_state one_block)) 24
  /\ alloc_count (s_mem_state s') = add16 (alloc_count (s_mem_state one_block)) 1
  /\ heap_total_freed (s_mem_state s') = heap_total_freed (s_mem_state one_block)
  /\ free_count (s_mem_state s') = free_count (s_mem_state one_block).
Proof.
  apply (track_alloc_claims_first_free_slot 0x0308 24 one_block 1 (mkEntry 0 0 0)).
  - unfold NULL. lia.
  - vm_compute. reflexivity.
  - vm_compute. reflexivity.
Defined.

(** X3.  A tracked free releases the lowest-indexed active slot holding
    the address: the slot keeps its [ptr] and [size] and becomes
    inactive, every other slot is untouched, the recorded size moves from
    [heap_used] to [heap_total_freed], and the table is no longer full,
    so the next allocation cannot be rejected. *)
Theorem track_free_releases_first_match
        (p : Z) (s : state) (i : nat) (e : AllocationEntry) :
  p <> NULL ->
  length (s_alloc_table s) = MAX_HEAP_ALLOCATIONS ->
  list_find (records p) (s_alloc_table s) = Some (i, e) ->
  let s' := mem_monitor_track_free p s in
  s_alloc_table s' !! i = Some (mkEntry p (size e) 0)
  /\ (forall j, j <> i -> s_alloc_table s' !! j = s_alloc_table s !! j)
  /\ S (active_slots (s_alloc_table s')) = active_slots (s_alloc_table s)
  /\ table_full (s_alloc_table s') = false
  /\ heap_used (s_mem_state s') = sub16 (heap_used (s_mem_state s)) (size e)
  /\ heap_total_freed (s_mem_state s') = add16 (heap_total_freed (s_mem_state s)) (size e)
  /\ free_count (s_mem_state s') = add16 (free_count (s_mem_state s)) 1
  /\ heap_total_allocated (s_mem_state s') = heap_total_allocated (s_mem_state s)
  /\ alloc_count (s_mem_state s') = alloc_count (s_mem_state s).
Proof.
  intros Hp Hlen Hfind. cbv zeta. rewrite (track_free_find p s i e Hp Hlen Hfind).
  apply list_find_Some in Hfind as (Hi & [Hact Hptr] & _).
  pose proof (lookup_lt_Some _ _ _ Hi) as Hlt. simpl. rewrite Hptr.
  pose proof (active_slots_insert _ _ _ (mkEntry p (size e) 0) Hi) as Hins.
  unfold active_bit in Hins. rewrite Hact in Hins. simpl in Hins.
  split; [apply list_lookup_insert_eq; exact Hlt |].
  split; [intros j Hj; apply list_lookup_insert_ne; congruence |].
  split; [lia |]. split.
  { destruct (table_full (<[i:=mkEntry p (size e) 0]> (s_alloc_table s))) eqn:Hfull;
      [| reflexivity].
    apply table_full_iff_all_active in Hfull. rewrite length_insert in Hfull.
    pose proof (active_slots_le (s_alloc_table s)). lia. }
  repeat split; reflexivity.
Qed.

Lemma track_free_releases_first_match_witness :
  let s' := mem_monitor_track_free 0x0310 full_state in
  s_alloc_table s' !! 2%nat = Some (mkEntry 0x0310 8 0)
  /\ (forall j, j <> 2%nat -> s_alloc_table s' !! j = s_alloc_table full_state !! j)
  /\ S (active_slots (s_alloc_table s')) = active_slots (s_alloc_table full_state)
  /\ table_full (s_alloc_table s') = false
  /\ heap_used (s_mem_state s') = sub16 (heap_used (s_mem_state full_state)) 8
  /\ heap_total_freed (s_mem_state s')
     = add16 (heap_total_freed (s_mem_state full_state)) 8
  /\ free_count (s_mem_state s') = add16 (free_count (s_mem_state full_state)) 1
  /\ heap_total_allocated (s_mem_state s') = heap_total_allocated (s_mem_state full_state)
  /\ alloc_count (s_mem_state s') = alloc_count (s_mem_state full_state).
Proof.
  apply (track_free_releases_first_match 0x0310 full_state 2 (mkEntry 0x0310 8 1)).
  - unfold NULL. lia.
  - vm_compute. reflexivity.
  - vm_compute. reflexivity.
Defined.

(** After a successful allocation of an address that was not tracked,
    the slot just written is the first one that records it. *)
Lemma find_after_alloc p sz (t : list AllocationEntry) i e :
  tracked p t = false -> t !! i = Some e ->
  list_find (records p) (<[i := mkEntry p sz 1]> t) = Some (i, mkEntry p sz 1).
Proof.
  intros Hun Hi. pose proof (lookup_lt_Some _ _ _ Hi) as Hlt.
  apply list_find_Some. split; [apply list_lookup_insert_eq; exact Hlt |].
  split; [split; reflexivity |].
  intros j y Hj Hji Hrec. rewrite list_lookup_insert_ne in Hj by lia.
  assert (Ht : tracked p t = true); [| congruence].
  apply tracked_iff. exists y. split; [| exact Hrec].
  eapply list_elem_of_lookup_2. exact Hj.
Qed.

Lemma alloc_then_free_eq p sz s i e :
  p <> NULL -> length (s_alloc_table s) = MAX_HEAP_ALLOCATIONS ->
  tracked p (s_alloc_table s) = false ->
  list_find free_slot (s_alloc_table s) = Some (i, e) ->
  mem_monitor_track_free p (mem_monitor_track_alloc p sz s) =
  set_mem_state (stats_on_free sz (stats_on_alloc sz (s_mem_state s)))
                (set_slot i (mkEntry p sz 0) s).
Proof.
  intros Hp Hlen Hun Hfind.
  rewrite (track_alloc_find p sz s i e Hp Hlen Hfind).
  apply list_find_Some in Hfind as (Hi & _ & _).
  rewrite (track_free_find p _ i (mkEntry p sz 1) Hp);
    [| simpl; rewrite length_insert; exact Hlen
     | simpl; apply (find_after_alloc p sz _ i e Hun Hi)].
  unfold set_slot, set_table, set_mem_state. simpl.
  rewrite list_insert_insert_eq. reflexivity.
Qed.

(** X4.  Allocate-then-free round trip.  If the address was not tracked
    and a slot was free, tracking an allocation and then its free brings
    [heap_used], the number of active slots and the set of tracked
    addresses back to what they were; only the cumulative counters move,
    by [sz] bytes and one event each. *)
Theorem alloc_then_free_restores_ledger
        (p sz : Z) (s : state) (i : nat) (e : AllocationEntry) :
  p <> NULL ->
  length (s_alloc_table s) = MAX_HEAP_ALLOCATIONS ->
  tracked p (s_alloc_table s) = false ->
  list_find free_slot (s_alloc_table s) = Some (i, e) ->
  is_u16 (heap_used (s_mem_state s)) ->
  let s2 := mem_monitor_track_free p (mem_monitor_track_alloc p sz s) in
  heap_used (s_mem_state s2) = heap_used (s_mem_state s)
  /\ active_slots (s_alloc_table s2) = active_slots (s_alloc_table s)
  /\ (forall q, tracked q (s_alloc_table s2) = tracked q (s_alloc_table s))
  /\ heap_total_allocated (s_mem_state s2) = add16 (heap_total_allocated (s_mem_state s)) sz
  /\ heap_total_freed (s_mem_state s2) = add16 (heap_total_freed (s_mem_state s)) sz
  /\ alloc_count (s_mem_state s2) = add16 (alloc_count (s_mem_state s)) 1
  /\ free_count (s_mem_state s2) = add16 (free_count (s_mem_state s)) 1.
Proof.
  intros Hp Hlen Hun Hfind Hu. cbv zeta.
  rewrite (alloc_then_free_eq p sz s i e Hp Hlen Hun Hfind).
  apply list_find_Some in Hfind as (Hi & Hfree & _). simpl.
  split.
  { unfold sub16, add16, to_u16. rewrite Zminus_mod_idemp_l.
    replace (heap_used (s_mem_state s) + sz - sz) with (heap_used (s_mem_state s)) by lia.
    apply to_u16_id, Hu. }
  split.
  { pose proof (active_slots_insert _ _ _ (mkEntry p sz 0) Hi) as Hins.
    unfold active_bit in Hins. rewrite Hfree in Hins. simpl in Hins. lia. }
  split; [intros q; apply (tracked_insert_inactive q _ i e); auto |].
  repeat split; reflexivity.
Qed.

Lemma alloc_then_free_restores_ledger_witness :
  let s2 := mem_monitor_track_free 0x0308 (mem_monitor_track_alloc 0x0308 24 one_block) in
  heap_used (s_mem_state s2) = heap_used (s_mem_state one_block)
  /\ active_slots (s_alloc_table s2) = active_slots (s_alloc_table one_block)
  /\ (forall q, tracked q (s_alloc_table s2) = tracked q (s_alloc_table one_block))
  /\ heap_total_allocated (s_mem_state s2)
     = add16 (heap_total_allocated (s_mem_state one_block)) 24
  /\ heap_total_freed (s_mem_state s2) = add16 (heap_total_freed (s_mem_state one_block)) 24
  /\ alloc_count (s_mem_state s2) = add16 (alloc_count (s_mem_state one_block)) 1
  /\ free_count (s_mem_state s2) = add16 (free_count (s_mem_state one_block)) 1.
Proof.
  apply (alloc_then_free_restores_ledger 0x0308 24 one_block 1 (mkEntry 0 0 0)).
  - unfold NULL. lia.
  - vm_compute. reflexivity.
  - vm_compute. reflexivity.
  - vm_compute. reflexivity.
  - vm_compute. split; [discriminate | reflexivity].
Defined.

(** X5.  Double free.  Once a block that was tracked exactly once has
    been freed, freeing the same address again changes nothing. *)
Theorem second_free_is_noop
        (p sz : Z) (s : state) (i : nat) (e : AllocationEntry) :
  p <> NULL ->
  length (s_alloc_table s) = MAX_HEAP_ALLOCATIONS ->
  tracked p (s_alloc_table s) = false ->
  list_find free_slot (s_alloc_table s) = Some (i, e) ->
  let s2 := mem_monitor_track_free p (mem_monitor_track_alloc p sz s) in
  mem_monitor_track_free p s2 = s2.
Proof.
  intros Hp Hlen Hun Hfind. cbv zeta.
  rewrite (alloc_then_free_eq p sz s i e Hp Hlen Hun Hfind).
  apply list_find_Some in Hfind as (Hi & Hfree & _).
  unfold mem_monitor_track_free. destruct (p =? NULL); [reflexivity |].
  apply track_free_loop_untracked. simpl.
  rewrite (tracked_insert_inactive p _ i e) by auto. exact Hun.
Qed.

Lemma second_free_is_noop_witness :
  let s2 := mem_monitor_track_free 0x0308 (mem_monitor_track_alloc 0x0308 24 one_block) in
  mem_monitor_track_free 0x0308 s2 = s2.
Proof.
  apply (second_free_is_noop 0x0308 24 one_block 1 (mkEntry 0 0 0)).
  - unfold NULL. lia.
  - vm_compute. reflexivity.
  - vm_compute. reflexivity.
  - vm_compute. reflexivity.
Defined.

(** X6.  The tracking calls touch nothing but the table and the five
    heap counters: registers, [__brkval], every SRAM byte, the recorded
    initial stack pointer, the high-water mark and the collision flag are
    the same after any call. *)
Theorem tracking_leaves_stack_monitor_alone (o : ledger_op) (s : state) :
  let s' := ledger_step o s in
  same_hardware s s'
  /\ init_stack_pointer (s_mem_state s') = init_stack_pointer (s_mem_state s)
  /\ max_stack_usage (s_mem_state s') = max_stack_usage (s_mem_state s)
  /\ collision_warning (s_mem_state s') = collision_warning (s_mem_state s).
Proof.
  cbv zeta. unfold same_hardware. destruct o as [p sz | p]; simpl.
  - unfold mem_monitor_track_alloc. destruct (p =? NULL); [tauto |].
    destruct (track_alloc_loop_cases MAX_HEAP_ALLOCATIONS 0 p sz s)
      as [-> | (j & e & _ & _ & ->)]; simpl; tauto.
  - unfold mem_monitor_track_free. destruct (p =? NULL); [tauto |].
    destruct (track_free_loop_cases MAX_HEAP_ALLOCATIONS 0 p s)
      as [-> | (j & e & _ & _ & _ & ->)]; simpl; tauto.
Qed.

(** X7.  Capacity.  In a state reached from [mem_monitor_init], a
    non-null allocation is dropped exactly when 32 slots are active; with
    fewer it is recorded and one more slot becomes active. *)
Theorem allocation_dropped_iff_32_active
        (heap_start : Z) (pre : state) (ops : list ledger_op) (p sz : Z) :
  p <> NULL ->
  let s := ledger_run ops (mem_monitor_init heap_start pre) in
  let s' := mem_monitor_track_alloc p sz s in
  (active_slots (s_alloc_table s) = MAX_HEAP_ALLOCATIONS -> s' = s)
  /\ (active_slots (s_alloc_table s) <> MAX_HEAP_ALLOCATIONS ->
      active_slots (s_alloc_table s') = S (active_slots (s_alloc_table s))
      /\ tracked p (s_alloc_table s') = true)
  /\ (active_slots (s_alloc_table s) <= MAX_HEAP_ALLOCATIONS)%nat.
Proof.
  intros Hp. cbv zeta.
  destruct (ledger_inv_run ops _ (ledger_inv_init heap_start pre)) as [Hlen].
  set (s := ledger_run ops (mem_monitor_init heap_start pre)) in *.
  split; [| split].
  - intros Hall. apply track_alloc_full_noop.
    apply table_full_iff_all_active. congruence.
  - intros Hroom.
    destruct (table_full (s_alloc_table s)) eqn:Hfull.
    { apply table_full_iff_all_active in Hfull. congruence. }
    destruct (not_full_has_free_slot _ Hfull) as (i & e & Hfind).
    rewrite (track_alloc_find p sz s i e Hp Hlen Hfind).
    apply list_find_Some in Hfind as (Hi & Hfree & _).
    pose proof (lookup_lt_Some _ _ _ Hi) as Hlt. simpl. split.
    + pose proof (active_slots_insert _ _ _ (mkEntry p sz 1) Hi) as Hins.
      unfold active_bit in Hins. rewrite Hfree in Hins. simpl in Hins. lia.
    + apply tracked_iff. exists (mkEntry p sz 1). split.
      * eapply list_elem_of_lookup_2. apply list_lookup_insert_eq. exact Hlt.
      * split; reflexivity.
  - rewrite <- Hlen. apply active_slots_le.
Qed.

Lemma allocation_dropped_iff_32_active_witness :
  let s := ledger_run fill_ops (mem_monitor_init 0x0200 (sample_hw 0x80 0xF0 0x08 0)) in
  let s' := mem_monitor_track_alloc 0x0400 8 s in
  (active_slots (s_alloc_table s) = MAX_HEAP_ALLOCATIONS -> s' = s)
  /\ (active_slots (s_alloc_table s) <> MAX_HEAP_ALLOCATIONS ->
      active_slots (s_alloc_table s') = S (active_slots (s_alloc_table s))
      /\ tracked 0x0400 (s_alloc_table s') = true)
  /\ (active_slots (s_alloc_table s) <= MAX_HEAP_ALLOCATIONS)%nat.
Proof.
  apply (allocation_dropped_iff_32_active 0x0200 (sample_hw 0x80 0xF0 0x08 0)
                                          fill_ops 0x0400 8).
  unfold NULL. lia.
Defined.

(** ** Extra properties of initialisation *)

(** X8.  [mem_monitor_init] writes the sentinel to every address from
    the heap end up to, but not including, the stack pointer, and to no
    other address; it leaves [__brkval] and the stack pointer registers
    as they were.  When the heap end is at or above the stack pointer it
    writes nothing. *)
Theorem init_arms_exactly_the_gap (heap_start : Z) (s : state) :
  let s' := mem_monitor_init heap_start s in
  (forall a, heap_end heap_start s <= a < sp_value s -> sram s' a = STACK_SENTINEL)
  /\ (forall a, a < heap_end heap_start s \/ sp_value s <= a -> sram s' a = sram s a)
  /\ (sp_value s <= heap_end heap_start s -> forall a, sram s' a = sram s a)
  /\ brkval s' = brkval s /\ SPL s' = SPL s /\ SPH s' = SPH s
  /\ SREG s' = to_u8 (SREG s).
Proof.
  cbv zeta. split; [| split; [| split]].
  - intros a Ha. rewrite init_sram.
    destruct (Z.leb_spec (heap_end heap_start s) a), (Z.ltb_spec a (sp_value s));
      simpl; try reflexivity; lia.
  - intros a Ha. rewrite init_sram.
    destruct (Z.leb_spec (heap_end heap_start s) a), (Z.ltb_spec a (sp_value s));
      simpl; try reflexivity; lia.
  - intros Hle a. rewrite init_sram.
    destruct (Z.leb_spec (heap_end heap_start s) a), (Z.ltb_spec a (sp_value s));
      simpl; try reflexivity; lia.
  - repeat split; try reflexivity.
    change (SREG (mem_monitor_init heap_start s)) with (to_u8 (to_u8 (SREG s))).
    unfold to_u8. rewrite Z.mod_mod by lia. reflexivity.
Qed.

(** X9.  [mem_monitor_init] forgets every earlier record: whatever the
    table and counters held, afterwards no slot is active, no address is
    tracked, all counters are zero, the recorded initial stack pointer is
    the current one, and a free of any address is a no-op. *)
Theorem init_resets_ledger (heap_start : Z) (s : state) (p : Z) :
  let s' := mem_monitor_init heap_start s in
  s_mem_state s' = mkMemState (sp_value s) 0 0 0 0 0 0 0
  /\ length (s_alloc_table s') = MAX_HEAP_ALLOCATIONS
  /\ active_slots (s_alloc_table s') = 0%nat
  /\ tracked p (s_alloc_table s') = false
  /\ mem_monitor_track_free p s' = s'.
Proof.
  cbv zeta. split; [reflexivity |]. split; [reflexivity |].
  split; [reflexivity |].
  assert (Hun : tracked p (s_alloc_table (mem_monitor_init heap_start s)) = false)
    by reflexivity.
  split; [exact Hun |].
  unfold mem_monitor_track_free. destruct (p =? NULL); [reflexivity |].
  apply track_free_loop_untracked. exact Hun.
Qed.

(** A re-initialisation in the middle of a run: the block allocated
    before it is no longer known afterwards. *)
Example reinit_forgets_outstanding_block :
  let s' := mem_monitor_init 0x0200 one_block in
  tracked 0x0300 (s_alloc_table one_block) = true
  /\ tracked 0x0300 (s_alloc_table s') = false
  /\ heap_used (s_mem_state s') = 0.
Proof. vm_compute. repeat split; reflexivity. Qed.

Lemma high_water_after_init_witness :
  max_stack_usage
    (s_mem_state (stack_run 0x050F (deep_call ++ [EvUpdate])
                            (mem_monitor_init 0x050F (sample_hw 0x80 0xF7 0x08 0)))) =
  Z.max (RAMEND - sp_value (sample_hw 0x80 0xF7 0x08 0)) (max_penetration deep_call).
Proof.
  apply (high_water_after_init 0x050F (sample_hw 0x80 0xF7 0x08 0) deep_call).
  - vm_compute. split; discriminate.
  - vm_compute. discriminate.
  - right. vm_compute. discriminate.
  - vm_compute. reflexivity.
Defined.

(** ** Extra properties of the scan and the update *)

Lemma scan_usage_bound heap_start s :
  0 <= heap_end heap_start s <= RAMEND ->
  0 <= scan_stack_usage heap_start s <= RAMEND - heap_end heap_start s.
Proof.
  intros Hhe. rewrite scan_usage_of_stop by exact Hhe.
  destruct (scan_stop_first_stop heap_start s) as (Hr & _); lia.
Qed.

(** X11.  Started by [mem_monitor_init] with the heap end inside SRAM,
    the high-water mark never exceeds the distance from the heap end to
    [RAMEND], whatever is stored on the stack and however often the
    monitor is polled. *)
Theorem high_water_mark_bounded
        (heap_start : Z) (s : state) (evs : list stack_event) :
  0 <= heap_end heap_start s <= RAMEND ->
  0 <= max_stack_usage
         (s_mem_state (stack_run heap_start evs (mem_monitor_init heap_start s)))
    <= RAMEND - heap_end heap_start s.
Proof.
  intros Hhe.
  assert (Hgen : forall s0,
    heap_end heap_start s0 = heap_end heap_start s ->
    0 <= max_stack_usage (s_mem_state s0) <= RAMEND - heap_end heap_start s ->
    0 <= max_stack_usage (s_mem_state (stack_run heap_start evs s0))
      <= RAMEND - heap_end heap_start s).
  { induction evs as [| e evs IH]; intros s0 Hh0 Hm0; [exact Hm0 |].
    change (stack_run heap_start (e :: evs) s0)
      with (stack_run heap_start evs (stack_step heap_start e s0)).
    apply IH; [rewrite step_heap_end; exact Hh0 |].
    destruct e as [| a v | sp]; simpl; try exact Hm0.
    rewrite update_max_stack_usage.
    pose proof (scan_usage_bound heap_start s0 ltac:(rewrite Hh0; exact Hhe)) as Hb.
    rewrite Hh0 in Hb. lia. }
  apply Hgen; [reflexivity |]. rewrite init_mem_state. simpl. lia.
Qed.

Lemma high_water_mark_bounded_witness :
  0 <= max_stack_usage
         (s_mem_state (stack_run 0x050F deep_call
                                 (mem_monitor_init 0x050F (sample_hw 0x80 0xF7 0x08 0))))
    <= RAMEND - heap_end 0x050F (sample_hw 0x80 0xF7 0x08 0).
Proof.
  apply (high_water_mark_bounded 0x050F (sample_hw 0x80 0xF7 0x08 0) deep_call).
  vm_compute. split; discriminate.
Defined.

(** X12.  The scan does not depend on where the heap ends, as long as the
    heap end stays at or below the first non-sentinel byte: after the
    allocator has raised [__brkval] into the sentinel zone the scan still
    stops at the same address and reports the same usage. *)
Theorem scan_ignores_heap_growth (heap_start : Z) (s s' : state) :
  sram s' = sram s ->
  0 <= heap_end heap_start s <= RAMEND ->
  heap_end heap_start s <= heap_end heap_start s' <= scan_stop heap_start s ->
  scan_stop heap_start s' = scan_stop heap_start s
  /\ scan_stack_usage heap_start s' = scan_stack_usage heap_start s.
Proof.
  intros Hm Hhe Hgrow.
  destruct (scan_stop_first_stop heap_start s) as (Hr & Hall & Hend); [lia |].
  assert (Hstop : scan_stop heap_start s' = scan_stop heap_start s).
  { eapply first_stop_unique.
    - apply scan_stop_first_stop. lia.
    - rewrite Hm. split; [lia |]. split; [| exact Hend].
      intros a Ha. apply Hall. lia. }
  split; [exact Hstop |].
  rewrite !scan_usage_of_stop by lia. rewrite Hstop. reflexivity.
Qed.

Lemma scan_ignores_heap_growth_witness :
  scan_stop 0x050F (mkState 0x80 0xF7 0x08 0x0600 (sram armed)
                            (s_alloc_table armed) (s_mem_state armed))
  = scan_stop 0x050F armed
  /\ scan_stack_usage 0x050F (mkState 0x80 0xF7 0x08 0x0600 (sram armed)
                                      (s_alloc_table armed) (s_mem_state armed))
     = scan_stack_usage 0x050F armed.
Proof.
  apply (scan_ignores_heap_growth 0x050F armed
           (mkState 0x80 0xF7 0x08 0x0600 (sram armed)
                    (s_alloc_table armed) (s_mem_state armed))).
  - reflexivity.
  - vm_compute. split; discriminate.
  - vm_compute. split; discriminate.
Defined.

(** X13.  Polling twice in a row, with nothing happening in between, is
    the same as polling once. *)
Theorem update_idempotent (heap_start : Z) (s : state) :
  mem_monitor_update heap_start (mem_monitor_update heap_start s)
  = mem_monitor_update heap_start s.
Proof.
  assert (Hscan : scan_stack_usage heap_start (mem_monitor_update heap_start s)
                  = scan_stack_usage heap_start s)
    by (apply scan_usage_ext; [apply update_sram | apply update_brkval]).
  pose proof (update_max_stack_usage heap_start s) as Hmax.
  unfold mem_monitor_update at 1. rewrite Hscan, Hmax.
  destruct (Z.gtb_spec (scan_stack_usage heap_start s)
              (Z.max (max_stack_usage (s_mem_state s)) (scan_stack_usage heap_start s)));
    [lia |].
  clear. unfold mem_monitor_update.
  destruct (scan_stack_usage heap_start s >? max_stack_usage (s_mem_state s));
    rewrite !check_collision_eq; cbv zeta; simpl;
    unfold set_mem_state, set_SREG, set_collision_warning, to_u8; simpl;
    rewrite Z.mod_mod by lia; reflexivity.
Qed.

(** X14.  [mem_monitor_update] changes only the high-water mark and the
    collision flag: the allocation table, the five heap counters, the
    recorded initial stack pointer, [__brkval], the stack pointer and
    every SRAM byte are untouched. *)
Theorem update_leaves_ledger_alone (heap_start : Z) (s : state) :
  let s' := mem_monitor_update heap_start s in
  same_ledger s s'
  /\ init_stack_pointer (s_mem_state s') = init_stack_pointer (s_mem_state s)
  /\ brkval s' = brkval s /\ SPL s' = SPL s /\ SPH s' = SPH s
  /\ sram s' = sram s
  /\ SREG s' = to_u8 (SREG s).
Proof.
  cbv zeta. unfold same_ledger, mem_monitor_update.
  destruct (_ >? _); rewrite check_collision_eq; cbv zeta; simpl; tauto.
Qed.

(** ** Extra properties of the queries *)

(** X15.  For 8-bit register contents the value returned by
    [mem_monitor_get_stack_pointer] is [SPH * 256 + SPL]: the two halves
    are combined without loss or carry, and the result is a 16-bit
    address. *)
Theorem get_stack_pointer_combines_registers (s : state) :
  is_u8 (SPL s) -> is_u8 (SPH s) ->
  fst (mem_monitor_get_stack_pointer s) = SPH s * 256 + SPL s
  /\ is_u16 (fst (mem_monitor_get_stack_pointer s)).
Proof.
  intros Hl Hh. rewrite get_stack_pointer_eq. simpl fst.
  split; [rewrite sp_value_regs by assumption; lia | apply sp_value_range].
Qed.

Lemma get_stack_pointer_combines_registers_witness :
  fst (mem_monitor_get_stack_pointer (sample_hw 0x80 0xF7 0x08 0)) = 0x08 * 256 + 0xF7
  /\ is_u16 (fst (mem_monitor_get_stack_pointer (sample_hw 0x80 0xF7 0x08 0))).
Proof.
  apply (get_stack_pointer_combines_registers (sample_hw 0x80 0xF7 0x08 0)).
  - vm_compute. split; [discriminate | reflexivity].
  - vm_compute. split; [discriminate | reflexivity].
Defined.

(** X16.  While the stack pointer lies between the heap end and
    [RAMEND], the current stack usage and the free gap add up to the
    whole distance from the heap end to [RAMEND]. *)
Theorem stack_usage_plus_free_space (heap_start : Z) (s : state) :
  0 <= heap_end heap_start s ->
  heap_end heap_start s <= sp_value s <= RAMEND ->
  fst (mem_monitor_get_current_stack_usage s)
  + fst (mem_monitor_get_free_stack_space heap_start s)
  = RAMEND - heap_end heap_start s.
Proof.
  intros Hhe Hsp.
  unfold mem_monitor_get_current_stack_usage, mem_monitor_get_free_stack_space.
  rewrite get_stack_pointer_eq.
  change (heap_end heap_start (set_SREG (to_u8 (SREG s)) s))
    with (heap_end heap_start s).
  assert (Hu : is_u16 (heap_end heap_start s)) by (unfold is_u16, RAMEND in *; lia).
  rewrite (to_u16_id _ Hu).
  pose proof (sp_value_range s) as Hr.
  rewrite (sub16_no_borrow RAMEND) by (unfold is_u16, RAMEND in *; lia).
  destruct (Z.gtb_spec (sp_value s) (heap_end heap_start s)); simpl fst.
  - rewrite sub16_no_borrow by (assumption || lia). lia.
  - lia.
Qed.

Lemma stack_usage_plus_free_space_witness :
  fst (mem_monitor_get_current_stack_usage (sample_hw 0x80 0xF0 0x08 0x0300))
  + fst (mem_monitor_get_free_stack_space 0x0200 (sample_hw 0x80 0xF0 0x08 0x0300))
  = RAMEND - heap_end 0x0200 (sample_hw 0x80 0xF0 0x08 0x0300).
Proof.
  apply (stack_usage_plus_free_space 0x0200 (sample_hw 0x80 0xF0 0x08 0x0300)).
  - vm_compute. discriminate.
  - vm_compute. split; discriminate.
Defined.

Lemma update_sp_value heap_start s :
  sp_value (mem_monitor_update heap_start s) = sp_value s.
Proof.
  unfold mem_monitor_update.
  destruct (_ >? _); rewrite check_collision_eq; reflexivity.
Qed.

Lemma update_collision_warning heap_start s :
  collision_warning (s_mem_state (mem_monitor_update heap_start s)) =
  if sub16 (sp_value s) (to_u16 (heap_end heap_start s)) <? COLLISION_SAFETY_MARGIN
  then 1 else 0.
Proof.
  unfold mem_monitor_update.
  destruct (_ >? _); rewrite check_collision_eq; reflexivity.
Qed.

Lemma free_stack_space_eq heap_start s :
  fst (mem_monitor_get_free_stack_space heap_start s) =
  if sp_value s >? to_u16 (heap_end heap_start s)
  then sub16 (sp_value s) (to_u16 (heap_end heap_start s)) else 0.
Proof.
  unfold mem_monitor_get_free_stack_space. rewrite get_stack_pointer_eq.
  change (heap_end heap_start (set_SREG (to_u8 (SREG s)) s))
    with (heap_end heap_start s).
  destruct (_ >? _); reflexivity.
Qed.

(** X17.  Right after an update, and while the stack pointer is at or
    above the heap end, the stored collision flag is set exactly when
    the free gap reported by [mem_monitor_get_free_stack_space] is below
    the safety margin. *)
Theorem warning_matches_free_space_after_update (heap_start : Z) (s : state) :
  is_u16 (heap_end heap_start s) ->
  heap_end heap_start s <= sp_value s ->
  let s' := mem_monitor_update heap_start s in
  collision_warning (s_mem_state s') = 1
  <-> fst (mem_monitor_get_free_stack_space heap_start s') < COLLISION_SAFETY_MARGIN.
Proof.
  intros Hhe Hsp. cbv zeta.
  rewrite free_stack_space_eq, update_sp_value, update_collision_warning.
  rewrite (step_heap_end heap_start EvUpdate s : heap_end heap_start
             (mem_monitor_update heap_start s) = heap_end heap_start s).
  rewrite (to_u16_id _ Hhe).
  rewrite sub16_no_borrow by (apply sp_value_range || assumption).
  unfold COLLISION_SAFETY_MARGIN.
  destruct (Z.ltb_spec (sp_value s - heap_end heap_start s) 128),
           (Z.gtb_spec (sp_value s) (heap_end heap_start s));
    split; intros; try lia; discriminate.
Qed.

Lemma warning_matches_free_space_after_update_witness :
  let s' := mem_monitor_update 0x0200 (sample_hw 0x80 0x64 0x02 0x0200) in
  collision_warning (s_mem_state s') = 1
  <-> fst (mem_monitor_get_free_stack_space 0x0200 s') < COLLISION_SAFETY_MARGIN.
Proof.
  apply (warning_matches_free_space_after_update 0x0200 (sample_hw 0x80 0x64 0x02 0x0200)).
  - vm_compute. split; [discriminate | reflexivity].
  - vm_compute. discriminate.
Defined.

(** X18.  [mem_monitor_get_stats] only reads: with an 8-bit [SREG] the
    state after the call is the state before it.  The report gives 2048
    bytes of SRAM, copies the five heap counters, the high-water mark
    and the stored collision flag, and its stack usage, free gap and
    fragmentation ratio are what the individual queries return. *)
Theorem get_stats_is_read_only
        (heap_start data_start data_end bss_start bss_end : Z) (s : state) :
  is_u8 (SREG s) ->
  let '(r, s') :=
    mem_monitor_get_stats heap_start data_start data_end bss_start bss_end s in
  s' = s
  /\ st_total_sram r = 2048
  /\ st_heap_used r = mem_monitor_get_heap_used s
  /\ st_heap_total_allocated r = heap_total_allocated (s_mem_state s)
  /\ st_heap_total_freed r = heap_total_freed (s_mem_state s)
  /\ st_alloc_count r = alloc_count (s_mem_state s)
  /\ st_free_count r = free_count (s_mem_state s)
  /\ st_max_stack_usage r = mem_monitor_get_max_stack_usage s
  /\ st_collision_warning r = collision_warning (s_mem_state s)
  /\ st_current_stack_usage r = fst (mem_monitor_get_current_stack_usage s)
  /\ st_free_ram r = fst (mem_monitor_get_free_stack_space heap_start s)
  /\ st_fragmentation_ratio r = mem_monitor_get_fragmentation_ratio heap_start s.
Proof.
  intros Hs.
  unfold mem_monitor_get_stats, mem_monitor_get_current_stack_usage,
    mem_monitor_get_free_stack_space.
  rewrite !get_stack_pointer_eq. cbv zeta.
  assert (Hs1 : set_SREG (to_u8 (SREG s)) s = s)
    by (rewrite (to_u8_id _ Hs); apply set_SREG_same).
  rewrite !Hs1.
  destruct (sp_value s >? to_u16 (heap_end heap_start s));
    simpl; repeat split; reflexivity.
Qed.

Lemma get_stats_is_read_only_witness :
  let '(r, s') :=
    mem_monitor_get_stats 0x0200 0x0100 0x0120 0x0120 0x0200 one_block in
  s' = one_block
  /\ st_total_sram r = 2048
  /\ st_heap_used r = mem_monitor_get_heap_used one_block
  /\ st_heap_total_allocated r = heap_total_allocated (s_mem_state one_block)
  /\ st_heap_total_freed r = heap_total_freed (s_mem_state one_block)
  /\ st_alloc_count r = alloc_count (s_mem_state one_block)
  /\ st_free_count r = free_count (s_mem_state one_block)
  /\ st_max_stack_usage r = mem_monitor_get_max_stack_usage one_block
  /\ st_collision_warning r = collision_warning (s_mem_state one_block)
  /\ st_current_stack_usage r = fst (mem_monitor_get_current_stack_usage one_block)
  /\ st_free_ram r = fst (mem_monitor_get_free_stack_space 0x0200 one_block)
  /\ st_fragmentation_ratio r = mem_monitor_get_fragmentation_ratio 0x0200 one_block.
Proof.
  apply (get_stats_is_read_only 0x0200 0x0100 0x0120 0x0120 0x0200 one_block).
  vm_compute. split; [discriminate | reflexivity].
Defined.

(** ** Extra properties of the fragmentation heuristic *)

Lemma live_over_capacity_nonneg s : (0 <= live_over_capacity s)%Q.
Proof.
  unfold live_over_capacity.
  pose proof (to_u16_range (alloc_count (s_mem_state s) - free_count (s_mem_state s))) as H.
  unfold is_u16 in H. fold (sub16 (alloc_count (s_mem_state s)) (free_count (s_mem_state s))) in H.
  unfold Qle, Qdiv, Qmult, Qinv, inject_Z. simpl. lia.
Qed.

(** X19.  Whatever the counters and heap bounds, the fragmentation ratio
    lies between 0 and 1. *)
Theorem fragmentation_ratio_in_unit_interval (heap_start : Z) (s : state) :
  (0 <= mem_monitor_get_fragmentation_ratio heap_start s
   /\ mem_monitor_get_fragmentation_ratio heap_start s <= 1)%Q.
Proof.
  assert (Hdef : mem_monitor_get_fragmentation_ratio heap_start s =
    if (total_free_heap heap_start s =? 0) || (alloc_count (s_mem_state s) =? 0)
    then 0%Q
    else if alloc_count (s_mem_state s) >? add16 (free_count (s_mem_state s)) 5
         then if Qle_bool (live_over_capacity s) 1 then live_over_capacity s else 1%Q
         else 0%Q) by reflexivity.
  rewrite Hdef.
  destruct (_ || _); [split; discriminate |].
  destruct (_ >? _); [| split; discriminate].
  destruct (Qle_bool (live_over_capacity s) 1) eqn:Hle.
  - split; [apply live_over_capacity_nonneg | apply Qle_bool_iff; exact Hle].
  - split; discriminate.
Qed.

(** X20.  In a state reached from [mem_monitor_init] whose event counters
    have not wrapped, and with some free space in the heap region, the
    ratio depends only on the number of active slots: it is 0 with five
    or fewer, and [active / 32] with six or more, so the clamp to 1.0 is
    never needed. *)
Theorem fragmentation_ratio_counts_active_slots
        (heap_start : Z) (pre : state) (ops : list ledger_op) :
  let s := ledger_run ops (mem_monitor_init heap_start pre) in
  let n := active_slots (s_alloc_table s) in
  total_free_heap heap_start s <> 0 ->
  free_count (s_mem_state s) <= alloc_count (s_mem_state s) ->
  free_count (s_mem_state s) + 5 < 65536 ->
  ((n <= 5)%nat -> mem_monitor_get_fragmentation_ratio heap_start s = 0%Q)
  /\ ((5 < n)%nat ->
      (mem_monitor_get_fragmentation_ratio heap_start s == Z.of_nat n # 32)%Q).
Proof.
  cbv zeta. intros Hfree Hle Hnowrap.
  destruct (ledger_inv_run ops _ (ledger_inv_init heap_start pre))
    as [Hlen _ Hc _ _ Hrac Hrfc].
  set (s := ledger_run ops (mem_monitor_init heap_start pre)) in *.
  pose proof (active_slots_le (s_alloc_table s)) as Hn. rewrite Hlen in Hn.
  rewrite sub16_no_borrow in Hc by assumption.
  assert (Hadd : add16 (free_count (s_mem_state s)) 5 = free_count (s_mem_state s) + 5).
  { unfold add16. apply to_u16_id. unfold is_u16 in *. lia. }
  assert (Hdef : mem_monitor_get_fragmentation_ratio heap_start s =
    if (total_free_heap heap_start s =? 0) || (alloc_count (s_mem_state s) =? 0)
    then 0%Q
    else if alloc_count (s_mem_state s) >? add16 (free_count (s_mem_state s)) 5
         then if Qle_bool (live_over_capacity s) 1 then live_over_capacity s else 1%Q
         else 0%Q) by reflexivity.
  rewrite Hdef, Hadd. clear Hdef. apply Z.eqb_neq in Hfree. rewrite Hfree. simpl orb.
  unfold is_u16 in *. split.
  - intros Hsmall. destruct (alloc_count (s_mem_state s) =? 0); [reflexivity |].
    destruct (Z.gtb_spec (alloc_count (s_mem_state s)) (free_count (s_mem_state s) + 5));
      [lia | reflexivity].
  - intros Hbig.
    destruct (Z.eqb_spec (alloc_count (s_mem_state s)) 0); [lia |].
    destruct (Z.gtb_spec (alloc_count (s_mem_state s)) (free_count (s_mem_state s) + 5));
      [| lia].
    assert (Hlive : live_over_capacity s = (Z.of_nat (active_slots (s_alloc_table s)) * 1 # 32)%Q).
    { unfold live_over_capacity. rewrite sub16_no_borrow by (unfold is_u16; lia).
      rewrite <- Hc. reflexivity. }
    rewrite Hlive.
    assert (Heq : (Z.of_nat (active_slots (s_alloc_table s)) * 1 # 32
                   == Z.of_nat (active_slots (s_alloc_table s)) # 32)%Q)
      by (unfold Qeq; simpl; lia).
    destruct (Qle_bool _ 1) eqn:Hq; [exact Heq |].
    exfalso. assert (Hq' : Qle_bool (Z.of_nat (active_slots (s_alloc_table s)) * 1 # 32) 1 = true);
      [| congruence].
    apply Qle_bool_iff. unfold Qle. simpl. unfold MAX_HEAP_ALLOCATIONS in Hn. lia.
Qed.

Lemma fragmentation_ratio_counts_active_slots_witness :
  let s := ledger_run (alloc_blocks 10 ++ free_blocks 2)
                      (mem_monitor_init 0x0200 (sample_hw 0x80 0xF0 0x08 0x0400)) in
  let n := active_slots (s_alloc_table s) in
  ((n <= 5)%nat -> mem_monitor_get_fragmentation_ratio 0x0200 s = 0%Q)
  /\ ((5 < n)%nat ->
      (mem_monitor_get_fragmentation_ratio 0x0200 s == Z.of_nat n # 32)%Q).
Proof.
  apply (fragmentation_ratio_counts_active_slots 0x0200
           (sample_hw 0x80 0xF0 0x08 0x0400) (alloc_blocks 10 ++ free_blocks 2)).
  - vm_compute. discriminate.
  - vm_compute. discriminate.
  - vm_compute. reflexivity.
Defined.

(** * Properties of the allocator wrappers *)

(** X21.  With a real allocator that does not touch the monitor's
    statics, [__wrap_malloc] returns the allocator's pointer unchanged.
    A failed allocation (null) leaves the table and counters as they
    were, and so does any allocation made while every slot is active.
    When the table has its 32 slots, one of them free, [heap_used] is a
    16-bit value and the returned address is non-null and not yet
    tracked, the address is tracked with the size reduced to 16 bits, and
    [__wrap_free] of it brings [heap_used], the number of active slots
    and the tracking of the address back to what they were before the
    pair of calls. *)
Theorem wrapped_malloc_then_free
        (real_malloc : Z -> state -> Z * state) (real_free : Z -> state -> state)
        (sz : Z) (s : state) :
  allocator_keeps_monitor real_malloc real_free ->
  let '(p, s1) := __wrap_malloc real_malloc sz s in
  p = fst (real_malloc sz s)
  /\ (p = NULL ->
      s_alloc_table s1 = s_alloc_table s /\ s_mem_state s1 = s_mem_state s)
  /\ (table_full (s_alloc_table s) = true ->
      s_alloc_table s1 = s_alloc_table s /\ s_mem_state s1 = s_mem_state s)
  /\ (forall (i : nat) (e : AllocationEntry),
      length (s_alloc_table s) = MAX_HEAP_ALLOCATIONS ->
      list_find free_slot (s_alloc_table s) = Some (i, e) ->
      is_u16 (heap_used (s_mem_state s)) ->
      p <> NULL -> tracked p (s_alloc_table s) = false ->
      let s2 := __wrap_free real_free p s1 in
      tracked p (s_alloc_table s1) = true
      /\ heap_used (s_mem_state s1) = add16 (heap_used (s_mem_state s)) (to_u16 sz)
      /\ heap_used (s_mem_state s2) = heap_used (s_mem_state s)
      /\ active_slots (s_alloc_table s2) = active_slots (s_alloc_table s)
      /\ tracked p (s_alloc_table s2) = false).
Proof.
  intros [Hm Hf]. unfold __wrap_malloc, __wrap_free.
  destruct (Hm sz s) as [Ht Hms].
  destruct (real_malloc sz s) as [p s0]. simpl in Ht, Hms |- *.
  split; [reflexivity |]. split; [| split].
  - intros ->. rewrite <- Ht, <- Hms. split; reflexivity.
  - intros Hfull. rewrite <- Ht in Hfull.
    rewrite (track_alloc_full_noop p (to_u16 sz) s0 Hfull). split; assumption.
  - intros i e Hlen Hfind Hu Hp Hun. rewrite <- Ht in Hlen, Hfind, Hun.
    destruct (Hf p (mem_monitor_track_free p
                      (mem_monitor_track_alloc p (to_u16 sz) s0))) as [Ht2 Hms2].
    rewrite Ht2, Hms2.
    rewrite (alloc_then_free_eq p (to_u16 sz) s0 i e Hp Hlen Hun Hfind).
    rewrite (track_alloc_find p (to_u16 sz) s0 i e Hp Hlen Hfind).
    apply list_find_Some in Hfind as (Hi & Hfree & _).
    pose proof (lookup_lt_Some _ _ _ Hi) as Hlt. simpl.
    rewrite <- Ht, <- Hms.
    split.
    { apply tracked_iff. exists (mkEntry p (to_u16 sz) 1). split.
      - eapply list_elem_of_lookup_2. apply list_lookup_insert_eq. exact Hlt.
      - split; reflexivity. }
    split; [reflexivity |]. split.
    { unfold sub16, add16, to_u16. rewrite Zminus_mod_idemp_l.
      replace (heap_used (s_mem_state s0) + sz mod 65536 - sz mod 65536)
        with (heap_used (s_mem_state s0)) by lia.
      rewrite Hms. apply to_u16_id, Hu. }
    split.
    { pose proof (active_slots_insert _ _ _ (mkEntry p (to_u16 sz) 0) Hi) as Hins.
      unfold active_bit in Hins. rewrite Hfree in Hins. simpl in Hins. lia. }
    rewrite (tracked_insert_inactive p _ i e) by auto. exact Hun.
Qed.

Lemma wrapped_malloc_then_free_witness :
  let '(p, s1) := __wrap_malloc (bump_malloc 0x0200) 24 one_block in
  p = fst (bump_malloc 0x0200 24 one_block)
  /\ (p = NULL ->
      s_alloc_table s1 = s_alloc_table one_block
      /\ s_mem_state s1 = s_mem_state one_block)
  /\ (table_full (s_alloc_table one_block) = true ->
      s_alloc_table s1 = s_alloc_table one_block
      /\ s_mem_state s1 = s_mem_state one_block)
  /\ (forall (i : nat) (e : AllocationEntry),
      length (s_alloc_table one_block) = MAX_HEAP_ALLOCATIONS ->
      list_find free_slot (s_alloc_table one_block) = Some (i, e) ->
      is_u16 (heap_used (s_mem_state one_block)) ->
      p <> NULL -> tracked p (s_alloc_table one_block) = false ->
      let s2 := __wrap_free bump_free p s1 in
      tracked p (s_alloc_table s1) = true
      /\ heap_used (s_mem_state s1) = add16 (heap_used (s_mem_state one_block)) (to_u16 24)
      /\ heap_used (s_mem_state s2) = heap_used (s_mem_state one_block)
      /\ active_slots (s_alloc_table s2) = active_slots (s_alloc_table one_block)
      /\ tracked p (s_alloc_table s2) = false).
Proof.
  apply (wrapped_malloc_then_free (bump_malloc 0x0200) bump_free 24 one_block).
  split; intros; split; reflexivity.
Defined.

(** The wrappers on the two sample tables: with a free slot the block
    handed out at [0x0200] is tracked and then released; on the full
    table the block is handed out but never tracked. *)
Example wrapped_malloc_on_sample_tables :
  let '(p, s1) := __wrap_malloc (bump_malloc 0x0200) 24 one_block in
  let '(q, t1) := __wrap_malloc (bump_malloc 0x0200) 24 full_state in
  p = 0x0200
  /\ tracked p (s_alloc_table one_block) = false
  /\ tracked p (s_alloc_table s1) = true
  /\ heap_used (s_mem_state s1) = 32
  /\ heap_used (s_mem_state (__wrap_free bump_free p s1)) = 8
  /\ q = 0x0200
  /\ tracked q (s_alloc_table t1) = false
  /\ s_mem_state t1 = s_mem_state full_state.
Proof. vm_compute. repeat split; reflexivity. Qed.

(** * Properties of the UART driver *)

(** ** Baud rate setup *)

(** X22.  For a baud rate whose sixteenfold does not exceed the clock,
    and whose divider fits in 16 bits, [uart_init] stores in
    [UBRR0H:UBRR0L] the number [n] with
    [16 * baud * (n + 1) <= f_cpu < 16 * baud * (n + 2)], enables the
    transmitter only ([UCSR0B = 0x08]), selects 8 data bits
    ([UCSR0C = 0x06]) and transmits nothing. *)
Theorem uart_init_sets_divider (baud f_cpu : Z) (u : uart) :
  0 < baud -> is_u32 f_cpu ->
  16 * baud <= f_cpu -> f_cpu < 16 * baud * 65537 ->
  exists u',
    uart_init baud f_cpu u = Some u'
    /\ is_u8 (UBRR0H u') /\ is_u8 (UBRR0L u')
    /\ (let n := UBRR0H u' * 256 + UBRR0L u' in
        16 * baud * (n + 1) <= f_cpu < 16 * baud * (n + 2))
    /\ UCSR0B u' = 0x08 /\ UCSR0C u' = 0x06
    /\ UDR0 u' = UDR0 u.
Proof.
  intros Hb Hf Hlo Hhi. unfold is_u32 in Hf. unfold uart_init.
  assert (Hdiv : to_u32 (16 * baud) = 16 * baud)
    by (unfold to_u32; apply Z.mod_small; lia).
  rewrite Hdiv. destruct (Z.eqb_spec (16 * baud) 0) as [| _]; [lia |].
  set (q := f_cpu / (16 * baud)).
  assert (Hq : 1 <= q <= 65536).
  { split; [apply Z.div_le_lower_bound; lia |].
    assert (q < 65537); [apply Z.div_lt_upper_bound; lia | lia]. }
  assert (Hqm : 16 * baud * q <= f_cpu < 16 * baud * (q + 1)).
  { pose proof (Z.div_mod f_cpu (16 * baud) ltac:(lia)) as Hdm.
    pose proof (Z.mod_pos_bound f_cpu (16 * baud) ltac:(lia)) as Hmb.
    fold q in Hdm. lia. }
  assert (Hubrr : to_u16 (to_u32 (q - 1)) = q - 1).
  { unfold to_u32. rewrite (Z.mod_small (q - 1)) by lia.
    apply to_u16_id. unfold is_u16. lia. }
  rewrite Hubrr. eexists. split; [reflexivity |]. simpl.
  split; [apply to_u8_range |]. split; [apply to_u8_range |].
  split; [| repeat split; reflexivity].
  assert (Hsplit : to_u8 (Z.shiftr (q - 1) 8) * 256 + to_u8 (q - 1) = q - 1).
  { unfold to_u8. rewrite Z.shiftr_div_pow2 by lia. change (2 ^ 8) with 256.
    rewrite (Z.mod_small ((q - 1) / 256)).
    - pose proof (Z.div_mod (q - 1) 256 ltac:(lia)). lia.
    - split; [apply Z.div_pos; lia | apply Z.div_lt_upper_bound; lia]. }
  rewrite Hsplit. replace (q - 1 + 1) with q by lia.
  replace (q - 1 + 2) with (q + 1) by lia. exact Hqm.
Qed.

Lemma uart_init_sets_divider_witness :
  exists u',
    uart_init 115200 16000000 idle_uart = Some u'
    /\ is_u8 (UBRR0H u') /\ is_u8 (UBRR0L u')
    /\ (let n := UBRR0H u' * 256 + UBRR0L u' in
        16 * 115200 * (n + 1) <= 16000000 < 16 * 115200 * (n + 2))
    /\ UCSR0B u' = 0x08 /\ UCSR0C u' = 0x06
    /\ UDR0 u' = UDR0 idle_uart.
Proof.
  apply (uart_init_sets_divider 115200 16000000 idle_uart).
  - lia.
  - unfold is_u32. lia.
  - lia.
  - lia.
Defined.

(** X23.  Edge cases of [uart_init].  A baud rate of 0 makes the divider
    computation divide by zero.  A baud rate above one sixteenth of the
    clock gives quotient 0, and the subtraction of 1 wraps: the divider
    registers are set to [0xFF:0xFF], the slowest rate, not the
    fastest. *)
Theorem uart_init_edge_cases (baud f_cpu : Z) (u : uart) :
  0 <= f_cpu ->
  (baud = 0 -> uart_init baud f_cpu u = None)
  /\ (f_cpu < 16 * baud < 4294967296 ->
      exists u', uart_init baud f_cpu u = Some u'
                 /\ UBRR0H u' = 0xFF /\ UBRR0L u' = 0xFF).
Proof.
  intros Hf. split.
  - intros ->. reflexivity.
  - intros Hfast. unfold uart_init.
    assert (Hdiv : to_u32 (16 * baud) = 16 * baud)
      by (unfold to_u32; apply Z.mod_small; lia).
    rewrite Hdiv. destruct (Z.eqb_spec (16 * baud) 0) as [| _]; [lia |].
    rewrite (Z.div_small f_cpu (16 * baud)) by lia.
    eexists. split; [reflexivity |]. split; reflexivity.
Qed.

Lemma uart_init_edge_cases_witness :
  (0 = 0 -> uart_init 0 16000000 idle_uart = None)
  /\ (16000000 < 16 * 0 < 4294967296 ->
      exists u', uart_init 0 16000000 idle_uart = Some u'
                 /\ UBRR0H u' = 0xFF /\ UBRR0L u' = 0xFF).
Proof.
  apply (uart_init_edge_cases 0 16000000 idle_uart). lia.
Defined.

(** A request for 2 Mbaud on a 16 MHz clock programs the divider
    [0xFFFF]. *)
Example uart_init_too_fast :
  uart_init 2000000 16000000 idle_uart
  = Some (mkUart 0xFF 0xFF 0x08 0x06 (UCSR0A idle_uart) 0 [] (print_u16_buffer idle_uart)).
Proof. reflexivity. Qed.

(** ** Transmitting *)

Lemma transmits_trans u l1 u1 l2 u2 :
  transmits u l1 u1 -> transmits u1 l2 u2 -> transmits u (l1 ++ l2) u2.
Proof.
  unfold transmits, same_uart_setup.
  intros [(H1 & H2 & H3 & H4 & H5) Hd] [(K1 & K2 & K3 & K4 & K5) Kd].
  rewrite Kd, Hd, app_assoc. repeat split; congruence.
Qed.

Lemma ready_within_transmits d u l u' :
  transmits u l u' -> ready_within d u -> ready_within d u'.
Proof.
  unfold transmits, same_uart_setup, ready_within.
  intros [(_ & _ & _ & _ & Ho) _] H k. rewrite Ho. apply H.
Qed.

Lemma wait_for_empty_ready j : forall polls u,
  tx_ready (UCSR0A u (status_reads u + j)) = true -> (j < polls)%nat ->
  exists u', wait_for_empty polls u = Some u'
             /\ transmits u [] u'
             /\ print_u16_buffer u' = print_u16_buffer u
             /\ (status_reads u < status_reads u' <= status_reads u + j + 1)%nat.
Proof.
  induction j as [| j IH]; intros [| polls] u Hr Hlt; try lia; simpl.
  - rewrite Nat.add_0_r in Hr. unfold tx_ready in Hr.
    apply negb_true_iff in Hr. rewrite Hr.
    eexists. split; [reflexivity |]. unfold transmits, same_uart_setup. simpl.
    rewrite app_nil_r. repeat split; lia.
  - destruct (Z.land (UCSR0A u (status_reads u)) (Z.shiftl 1 UDRE0) =? 0) eqn:Hv.
    + destruct (IH polls (snd (read_status u))) as (u' & Hw & Ht & Hb & Hs).
      { simpl. rewrite <- Nat.add_succ_r. exact Hr. }
      { lia. }
      exists u'. split; [exact Hw |]. simpl in *. split; [exact Ht |].
      split; [exact Hb | lia].
    + eexists. split; [reflexivity |]. unfold transmits, same_uart_setup. simpl.
      rewrite app_nil_r. repeat split; lia.
Qed.

Lemma uart_putc_ok d polls data u :
  ready_within d u -> (d <= polls)%nat ->
  exists u', uart_putc polls data u = Some u'
             /\ transmits u [to_u8 data] u'
             /\ print_u16_buffer u' = print_u16_buffer u
             /\ (status_reads u < status_reads u' <= status_reads u + d)%nat.
Proof.
  intros Hr Hd. destruct (Hr (status_reads u)) as (j & Hj & Hready).
  destruct (wait_for_empty_ready j polls u Hready ltac:(lia))
    as (u1 & Hw & [Hsetup Hdata] & Hb & Hs).
  exists (write_UDR0 (to_u8 data) u1). unfold uart_putc. rewrite Hw. simpl.
  split; [reflexivity |]. unfold transmits, same_uart_setup in *. simpl.
  rewrite Hdata, app_nil_r. repeat split; try tauto; lia.
Qed.

(** X24.  If the hardware shows the data-register-empty flag within [d]
    reads of the status register, [uart_putc] returns after at most [d]
    reads, having written exactly one byte, the character reduced to 8
    bits, after all earlier output, and no other register. *)
Theorem uart_putc_sends_one_byte (d polls : nat) (data : Z) (u : uart) :
  ready_within d u -> (d <= polls)%nat ->
  exists u',
    uart_putc polls data u = Some u'
    /\ UDR0 u' = UDR0 u ++ [to_u8 data]
    /\ same_uart_setup u u'
    /\ (status_reads u < status_reads u' <= status_reads u + d)%nat.
Proof.
  intros Hr Hd.
  destruct (uart_putc_ok d polls data u Hr Hd) as (u' & Hp & [Hsetup Hdata] & _ & Hs).
  exists u'. auto.
Qed.

Lemma slow_uart_ready : ready_within 3 slow_uart.
Proof.
  intros k.
  pose proof (Nat.div_mod_eq k 3) as Hk.
  pose proof (Nat.mod_upper_bound k 3 ltac:(lia)) as Hb.
  assert (Hj : exists j, (j < 3)%nat /\ (k + j = 2 + (k / 3) * 3)%nat).
  { destruct (k mod 3)%nat as [| [| [| r]]];
      [exists 2%nat | exists 1%nat | exists 0%nat | lia]; lia. }
  destruct Hj as (j & Hlt & Heq). exists j. split; [exact Hlt |].
  unfold tx_ready, slow_uart. cbn [UCSR0A].
  rewrite Heq, Nat.Div0.mod_add. reflexivity.
Qed.

Lemma uart_putc_sends_one_byte_witness :
  exists u',
    uart_putc 3 0x41 slow_uart = Some u'
    /\ UDR0 u' = UDR0 slow_uart ++ [to_u8 0x41]
    /\ same_uart_setup slow_uart u'
    /\ (status_reads slow_uart < status_reads u' <= status_reads slow_uart + 3)%nat.
Proof.
  apply (uart_putc_sends_one_byte 3 3 0x41 slow_uart).
  - exact slow_uart_ready.
  - lia.
Defined.

(** The wait loop gives up exactly when none of the reads it is allowed
    shows the flag. *)
Lemma wait_for_empty_None polls : forall u,
  wait_for_empty polls u = None <->
  (forall j, (j < polls)%nat -> tx_ready (UCSR0A u (status_reads u + j)) = false).
Proof.
  induction polls as [| polls IH]; intros u; simpl.
  - split; [intros _ j Hj; lia | reflexivity].
  - destruct (Z.land (UCSR0A u (status_reads u)) (Z.shiftl 1 UDRE0) =? 0) eqn:Hv.
    + rewrite IH. simpl. split.
      * intros Hb [| j] Hj.
        -- rewrite Nat.add_0_r. unfold tx_ready. rewrite Hv. reflexivity.
        -- rewrite Nat.add_succ_r. apply (Hb j). lia.
      * intros Hb j Hj. rewrite <- Nat.add_succ_r. apply Hb. lia.
    + split; [discriminate |]. intros Hb.
      pose proof (Hb 0%nat ltac:(lia)) as H0. rewrite Nat.add_0_r in H0.
      unfold tx_ready in H0. rewrite Hv in H0. discriminate.
Qed.

(** When the wait loop returns, it has read the status register up to
    and including the first read that shows the flag, and has written
    nothing. *)
Lemma wait_for_empty_Some polls : forall u u',
  wait_for_empty polls u = Some u' ->
  exists n,
    (n < polls)%nat
    /\ status_reads u' = S (status_reads u + n)
    /\ tx_ready (UCSR0A u (status_reads u + n)) = true
    /\ (forall j, (j < n)%nat -> tx_ready (UCSR0A u (status_reads u + j)) = false)
    /\ transmits u [] u'.
Proof.
  induction polls as [| polls IH]; intros u u' Hw; simpl in Hw; [discriminate |].
  destruct (Z.land (UCSR0A u (status_reads u)) (Z.shiftl 1 UDRE0) =? 0) eqn:Hv.
  - destruct (IH _ _ Hw) as (n & Hn & Hr & Hready & Hbusy & [Hsetup Hdata]).
    simpl in Hr, Hready, Hbusy, Hsetup, Hdata.
    exists (S n). split; [lia |]. split; [lia |].
    split; [rewrite Nat.add_succ_r; exact Hready |]. split.
    + intros [| j] Hj.
      * rewrite Nat.add_0_r. unfold tx_ready. rewrite Hv. reflexivity.
      * rewrite Nat.add_succ_r. apply Hbusy. lia.
    + unfold transmits, same_uart_setup in *. simpl in *. tauto.
  - injection Hw as <-. exists 0%nat. simpl. rewrite Nat.add_0_r.
    split; [lia |]. split; [reflexivity |].
    split; [unfold tx_ready; rewrite Hv; reflexivity |].
    split; [intros j Hj; lia |].
    unfold transmits, same_uart_setup. simpl. rewrite app_nil_r. tauto.
Qed.

(** X25.  [uart_putc] returns at the first read of the status register
    that shows the data-register-empty flag: when it returns, the reads
    it made are the busy ones before that read and that read itself, and
    one byte has been appended to the data-register output.  It is still
    waiting after [polls] reads exactly when none of them shows the
    flag. *)
Theorem uart_putc_returns_at_first_ready_read (polls : nat) (data : Z) (u : uart) :
  (forall u',
      uart_putc polls data u = Some u' ->
      exists n,
        (n < polls)%nat
        /\ status_reads u' = S (status_reads u + n)
        /\ tx_ready (UCSR0A u (status_reads u + n)) = true
        /\ (forall j, (j < n)%nat -> tx_ready (UCSR0A u (status_reads u + j)) = false)
        /\ UDR0 u' = UDR0 u ++ [to_u8 data])
  /\ (uart_putc polls data u = None <->
      forall j, (j < polls)%nat -> tx_ready (UCSR0A u (status_reads u + j)) = false).
Proof.
  unfold uart_putc. split.
  - intros u' Hp. destruct (wait_for_empty polls u) as [u1 |] eqn:Hw; [| discriminate].
    simpl in Hp. injection Hp as <-.
    destruct (wait_for_empty_Some polls u u1 Hw)
      as (n & Hn & Hr & Hready & Hbusy & [_ Hdata]).
    exists n. simpl. rewrite Hdata, app_nil_r. auto.
  - rewrite <- wait_for_empty_None.
    destruct (wait_for_empty polls u); simpl; split; intros H; congruence.
Qed.

(** On the transmitter that is ready on every third read: two polls are
    not enough, three are, and the byte goes out after the third read. *)
Example uart_putc_on_slow_uart :
  uart_putc 2 0x41 slow_uart = None
  /\ (status_reads <$> uart_putc 3 0x41 slow_uart) = Some 3%nat
  /\ (UDR0 <$> uart_putc 3 0x41 slow_uart) = Some [0x41].
Proof. vm_compute. repeat split; reflexivity. Qed.

(** ** Strings *)

Lemma uart_puts_ok d polls mem : forall l fuel p u,
  ready_within d u -> (d <= polls)%nat ->
  c_string mem p l -> (length l < fuel)%nat ->
  exists u', uart_puts polls mem fuel p u = Some u'
             /\ transmits u (List.map to_u8 l) u'
             /\ print_u16_buffer u' = print_u16_buffer u.
Proof.
  induction l as [| c l IH]; intros [| fuel] p u Hr Hd Hs Hf; simpl in *; try lia.
  - rewrite Hs. simpl. exists u. split; [reflexivity |].
    unfold transmits, same_uart_setup. rewrite app_nil_r. tauto.
  - destruct Hs as (Hc & Hnz & Hrest). rewrite Hc.
    apply Z.eqb_neq in Hnz. rewrite Hnz.
    destruct (uart_putc_ok d polls c u Hr Hd) as (u1 & Hp & Ht1 & Hb1 & _).
    rewrite Hp. simpl.
    destruct (IH fuel (p + 1) u1 (ready_within_transmits _ _ _ _ Ht1 Hr) Hd Hrest
                 ltac:(lia)) as (u2 & Hp2 & Ht2 & Hb2).
    exists u2. split; [exact Hp2 |]. split; [| congruence].
    apply (transmits_trans u [to_u8 c] u1 _ u2 Ht1 Ht2).
Qed.

Lemma uart_puts_P_eq polls mem : forall fuel p u,
  uart_puts_P polls mem fuel p u = uart_puts polls mem fuel p u.
Proof.
  induction fuel as [| fuel IH]; intros p u; simpl; [reflexivity |].
  destruct (mem p =? 0); [reflexivity |].
  destruct (uart_putc polls (mem p) u); simpl; [apply IH | reflexivity].
Qed.

(** X26.  With a transmitter that becomes ready, [uart_puts] and
    [uart_puts_P] send the characters of a NUL-terminated string in
    order, stop at the NUL without sending it, and send nothing for the
    empty string. *)
Theorem uart_puts_sends_the_string
        (d polls fuel : nat) (mem : Z -> Z) (p : Z) (l : list Z) (u : uart) :
  ready_within d u -> (d <= polls)%nat ->
  c_string mem p l -> (length l < fuel)%nat ->
  exists u',
    uart_puts polls mem fuel p u = Some u'
    /\ uart_puts_P polls mem fuel p u = Some u'
    /\ UDR0 u' = UDR0 u ++ List.map to_u8 l
    /\ same_uart_setup u u'
    /\ (l = [] -> u' = u).
Proof.
  intros Hr Hd Hs Hf.
  destruct (uart_puts_ok d polls mem l fuel p u Hr Hd Hs Hf) as (u' & Hp & [Hsetup Hdata] & _).
  exists u'. split; [exact Hp |].
  split; [etransitivity; [apply uart_puts_P_eq | exact Hp] |].
  split; [exact Hdata |]. split; [exact Hsetup |].
  intros ->. destruct fuel; [simpl in Hf; lia |]. simpl in Hp, Hs.
  rewrite Hs in Hp. simpl in Hp. congruence.
Qed.

Lemma uart_puts_sends_the_string_witness :
  exists u',
    uart_puts 3 (literal_mem Literal.hex_prefix) 3 0 slow_uart = Some u'
    /\ uart_puts_P 3 (literal_mem Literal.hex_prefix) 3 0 slow_uart = Some u'
    /\ UDR0 u' = UDR0 slow_uart ++ List.map to_u8 [48; 120]
    /\ same_uart_setup slow_uart u'
    /\ ([48; 120] = [] -> u' = slow_uart).
Proof.
  apply (uart_puts_sends_the_string 3 3 3 (literal_mem Literal.hex_prefix) 0
                                    [48; 120] slow_uart).
  - exact slow_uart_ready.
  - lia.
  - simpl. repeat split; try reflexivity; discriminate.
  - simpl. lia.
Defined.

(** ** Decimal output *)

Lemma decimal_fold (l : list Z) : forall a,
  fold_left (fun acc c => 10 * acc + (c - 48)) l a
  = a * 10 ^ Z.of_nat (length l) + decimal_value l.
Proof.
  unfold decimal_value. induction l as [| c l IH]; intros a.
  - simpl. lia.
  - cbn [fold_left length]. rewrite IH, (IH (10 * 0 + (c - 48))).
    rewrite Nat2Z.inj_succ, Z.pow_succ_r by lia. ring.
Qed.

Lemma decimal_value_app l1 l2 :
  decimal_value (l1 ++ l2)
  = decimal_value l1 * 10 ^ Z.of_nat (length l2) + decimal_value l2.
Proof.
  unfold decimal_value at 1. rewrite fold_left_app.
  fold (decimal_value l1). apply decimal_fold.
Qed.

Lemma c_string_store_below mem a v : forall l p,
  a < p -> c_string mem p l -> c_string (store mem a v) p l.
Proof.
  induction l as [| c l IH]; intros p Ha Hs; simpl in *; unfold store in *.
  - destruct (Z.eqb_spec p a); [lia | exact Hs].
  - destruct Hs as (Hc & Hnz & Hrest).
    destruct (Z.eqb_spec p a); [lia |].
    split; [exact Hc |]. split; [exact Hnz |]. apply IH; [lia | exact Hrest].
Qed.

(** The digit loop prepends to the string at [ptr] the decimal digits of
    [value], most significant first, without a leading zero. *)
Lemma u16_digits_spec : forall fuel value buf ptr rest,
  0 <= value < 10 ^ Z.of_nat fuel ->
  c_string buf ptr rest ->
  exists l,
    c_string (fst (u16_digits fuel value buf ptr)) (snd (u16_digits fuel value buf ptr))
             (l ++ rest)
    /\ Forall is_decimal_digit l
    /\ (length l <= fuel)%nat
    /\ decimal_value l = value
    /\ (value = 0 -> l = [])
    /\ (0 < value -> hd 0 l <> 48 /\ l <> []).
Proof.
  induction fuel as [| fuel IH]; intros value buf ptr rest Hv Hs.
  - simpl in Hv. assert (value = 0) by lia. subst value. simpl.
    exists []. repeat split; try exact Hs; try constructor; try lia.
  - rewrite Nat2Z.inj_succ, Z.pow_succ_r in Hv by lia. simpl.
    destruct (Z.gtb_spec value 0) as [Hpos | Hzero].
    + set (c := to_u8 (48 + value mod 10)).
      pose proof (Z.mod_pos_bound value 10 ltac:(lia)) as Hm.
      pose proof (Z.div_mod value 10 ltac:(lia)) as Hdm.
      assert (Hc : c = 48 + value mod 10)
        by (unfold c; apply to_u8_id; unfold is_u8; lia).
      assert (Hq : 0 <= value / 10 < 10 ^ Z.of_nat fuel).
      { split; [apply Z.div_pos; lia | apply Z.div_lt_upper_bound; lia]. }
      destruct (IH (value / 10) (store buf (ptr - 1) c) (ptr - 1) (c :: rest) Hq)
        as (l & Hstr & Hdig & Hlen & Hval & Hz & Hnz).
      { simpl. split; [unfold store; rewrite Z.eqb_refl; reflexivity |].
        split; [lia |]. replace (ptr - 1 + 1) with ptr by lia.
        apply c_string_store_below; [lia | exact Hs]. }
      exists (l ++ [c]). rewrite <- app_assoc. simpl app at 2.
      split; [exact Hstr |].
      split; [apply Forall_app; split; [exact Hdig | constructor; [| constructor]];
              unfold is_decimal_digit; lia |].
      split; [rewrite length_app; simpl; lia |].
      split.
      { rewrite decimal_value_app, Hval. unfold decimal_value. simpl. lia. }
      split; [lia |]. intros _.
      destruct (Z.eq_dec (value / 10) 0) as [Hq0 | Hq0].
      * rewrite (Hz Hq0). simpl. split; [lia | discriminate].
      * destruct (Hnz ltac:(lia)) as [Hhd Hne].
        destruct l as [| x l']; [congruence |]. simpl in *. split; [exact Hhd | discriminate].
    + assert (value = 0) by lia. subst value. simpl.
      exists []. repeat split; try exact Hs; try constructor; simpl; lia.
Qed.

Lemma map_to_u8_digits l : Forall is_decimal_digit l -> List.map to_u8 l = l.
Proof.
  induction 1 as [| c l Hc _ IH]; [reflexivity |]. simpl. rewrite IH.
  f_equal. apply to_u8_id. unfold is_decimal_digit, is_u8 in *. lia.
Qed.

(** X27.  With a transmitter that becomes ready, [uart_print_u16] sends
    the decimal representation of any 16-bit value: between one and five
    digit characters, most significant first, with no leading zero
    (except the single digit of 0), whose value read back as a decimal
    number is the value printed. *)
Theorem uart_print_u16_sends_decimal (d polls : nat) (value : Z) (u : uart) :
  ready_within d u -> (d <= polls)%nat -> is_u16 value ->
  exists u' l,
    uart_print_u16 polls value u = Some u'
    /\ UDR0 u' = UDR0 u ++ l
    /\ Forall is_decimal_digit l
    /\ decimal_value l = value
    /\ (1 <= length l <= 5)%nat
    /\ (value <> 0 -> hd 0 l <> 48)
    /\ same_uart_setup u u'.
Proof.
  intros Hr Hd Hv. unfold is_u16 in Hv. unfold uart_print_u16. cbv zeta.
  set (buf0 := store (print_u16_buffer u) 5 0).
  assert (Hr0 : ready_within d (set_print_u16_buffer buf0 u)) by exact Hr.
  destruct (Z.eqb_spec value 0) as [-> | Hnz].
  - destruct (uart_putc_ok d polls 48 _ Hr0 Hd) as (u' & Hp & [Hsetup Hdata] & _).
    exists u', [48]. split; [exact Hp |]. split; [exact Hdata |].
    split; [constructor; [unfold is_decimal_digit; lia | constructor] |].
    split; [reflexivity |]. split; [simpl; lia |]. split; [congruence | exact Hsetup].
  - destruct (u16_digits_spec 5 value buf0 5 []) as (l & Hstr & Hdig & Hlen & Hval & _ & Hhd).
    { change (10 ^ Z.of_nat 5) with 100000. lia. }
    { unfold buf0, store. simpl. reflexivity. }
    rewrite app_nil_r in Hstr.
    destruct (u16_digits 5 value buf0 5) as [buf ptr]. simpl fst in Hstr. simpl snd in Hstr.
    destruct (uart_puts_ok d polls buf l 6 ptr (set_print_u16_buffer buf (set_print_u16_buffer buf0 u)))
      as (u' & Hp & [Hsetup Hdata] & _); [exact Hr | exact Hd | exact Hstr | lia |].
    exists u', l. split; [exact Hp |].
    rewrite (map_to_u8_digits l Hdig) in Hdata.
    split; [exact Hdata |]. split; [exact Hdig |]. split; [exact Hval |].
    destruct (Hhd ltac:(lia)) as [Hh Hne].
    split; [destruct l; [congruence | simpl in *; lia] |].
    split; [intros _; exact Hh | exact Hsetup].
Qed.

Lemma uart_print_u16_sends_decimal_witness :
  exists u' l,
    uart_print_u16 3 2048 slow_uart = Some u'
    /\ UDR0 u' = UDR0 slow_uart ++ l
    /\ Forall is_decimal_digit l
    /\ decimal_value l = 2048
    /\ (1 <= length l <= 5)%nat
    /\ (2048 <> 0 -> hd 0 l <> 48)
    /\ same_uart_setup slow_uart u'.
Proof.
  apply (uart_print_u16_sends_decimal 3 3 2048 slow_uart).
  - exact slow_uart_ready.
  - lia.
  - unfold is_u16. lia.
Defined.

(** What goes out for 2048 and for 0. *)
Example uart_print_u16_examples :
  (UDR0 <$> uart_print_u16 1 2048 idle_uart) = Some [50; 48; 52; 56]
  /\ (UDR0 <$> uart_print_u16 1 0 idle_uart) = Some [48]
  /\ (UDR0 <$> uart_print_u16 1 65535 idle_uart) = Some [54; 53; 53; 51; 53].
Proof. vm_compute. repeat split; reflexivity. Qed.

(** ** Hexadecimal output *)

(** Each entry of the digit table is a byte of the table whose value as
    a hexadecimal digit is its index. *)
Lemma hex_digit_table n :
  0 <= n < 16 ->
  let c := literal_mem Literal.hex_digits n in
  hex_digit_value c = n /\ to_u8 c = c /\ In c Literal.hex_digits.
Proof.
  intros Hn. rewrite <- (Z2Nat.id n) by lia.
  assert (Hk : (Z.to_nat n < 16)%nat) by lia.
  generalize dependent (Z.to_nat n). intros k Hk.
  do 16 (destruct k as [| k]; [vm_compute; repeat split; tauto |]).
  lia.
Qed.

Lemma nibble_of value i :
  0 <= i ->
  to_u8 (Z.land (Z.shiftr value i) 0x0F) = (value / 2 ^ i) mod 16
  /\ 0 <= (value / 2 ^ i) mod 16 < 16.
Proof.
  intros Hi. change 0x0F with (Z.ones 4).
  rewrite Z.land_ones by lia. rewrite Z.shiftr_div_pow2 by lia.
  change (2 ^ 4) with 16.
  pose proof (Z.mod_pos_bound (value / 2 ^ i) 16 ltac:(lia)) as Hb.
  split; [apply to_u8_id; unfold is_u8; lia | exact Hb].
Qed.

Lemma hex16_nibbles value :
  is_u16 value ->
  ((((value / 2 ^ 12) mod 16) * 16 + (value / 2 ^ 8) mod 16) * 16
   + (value / 2 ^ 4) mod 16) * 16 + (value / 2 ^ 0) mod 16 = value.
Proof.
  unfold is_u16. intros Hv.
  change (2 ^ 12) with 4096. change (2 ^ 8) with 256.
  change (2 ^ 4) with 16. change (2 ^ 0) with 1. rewrite Z.div_1_r.
  assert (D1 : value / 16 / 16 = value / 256) by (rewrite Z.div_div by lia; reflexivity).
  assert (D2 : value / 256 / 16 = value / 4096) by (rewrite Z.div_div by lia; reflexivity).
  pose proof (Z.div_mod value 16 ltac:(lia)) as H0.
  pose proof (Z.div_mod (value / 16) 16 ltac:(lia)) as H1. rewrite D1 in H1.
  pose proof (Z.div_mod (value / 256) 16 ltac:(lia)) as H2. rewrite D2 in H2.
  assert (H3 : (value / 4096) mod 16 = value / 4096).
  { apply Z.mod_small. split; [apply Z.div_pos; lia | apply Z.div_lt_upper_bound; lia]. }
  rewrite H3. lia.
Qed.

(** X28.  With a transmitter that becomes ready, [uart_print_hex16]
    sends ["0x"] followed by exactly four characters out of
    [0-9A-F], most significant first, whose value read back as a
    hexadecimal number is the 16-bit value printed. *)
Theorem uart_print_hex16_sends_hex (d polls : nat) (value : Z) (u : uart) :
  ready_within d u -> (d <= polls)%nat -> is_u16 value ->
  exists u' l,
    uart_print_hex16 polls value u = Some u'
    /\ UDR0 u' = UDR0 u ++ [48; 120] ++ l
    /\ length l = 4%nat
    /\ Forall (fun c => c ∈ Literal.hex_digits) l
    /\ hex_value l = value
    /\ same_uart_setup u u'.
Proof.
  intros Hr Hd Hv. unfold uart_print_hex16.
  destruct (uart_puts_ok d polls (literal_mem Literal.hex_prefix) [48; 120] 3 0 u Hr Hd)
    as (u0 & Hp0 & Ht0 & _).
  { simpl. repeat split; try reflexivity; discriminate. }
  { simpl. lia. }
  rewrite Hp0. simpl mbind. change (List.map to_u8 [48; 120]) with [48; 120] in Ht0.
  pose proof (ready_within_transmits _ _ _ _ Ht0 Hr) as Hr0.
  destruct (nibble_of value 12 ltac:(lia)) as [E3 B3].
  destruct (nibble_of value 8 ltac:(lia)) as [E2 B2].
  destruct (nibble_of value 4 ltac:(lia)) as [E1 B1].
  destruct (nibble_of value 0 ltac:(lia)) as [E0 B0].
  set (c3 := literal_mem Literal.hex_digits ((value / 2 ^ 12) mod 16)).
  set (c2 := literal_mem Literal.hex_digits ((value / 2 ^ 8) mod 16)).
  set (c1 := literal_mem Literal.hex_digits ((value / 2 ^ 4) mod 16)).
  set (c0 := literal_mem Literal.hex_digits ((value / 2 ^ 0) mod 16)).
  destruct (hex_digit_table _ B3) as (V3 & U3 & I3). fold c3 in V3, U3, I3.
  destruct (hex_digit_table _ B2) as (V2 & U2 & I2). fold c2 in V2, U2, I2.
  destruct (hex_digit_table _ B1) as (V1 & U1 & I1). fold c1 in V1, U1, I1.
  destruct (hex_digit_table _ B0) as (V0 & U0 & I0). fold c0 in V0, U0, I0.
  destruct (uart_putc_ok d polls c3 u0 Hr0 Hd) as (u1 & Hp1 & Ht1 & _).
  pose proof (ready_within_transmits _ _ _ _ Ht1 Hr0) as Hr1.
  destruct (uart_putc_ok d polls c2 u1 Hr1 Hd) as (u2 & Hp2 & Ht2 & _).
  pose proof (ready_within_transmits _ _ _ _ Ht2 Hr1) as Hr2.
  destruct (uart_putc_ok d polls c1 u2 Hr2 Hd) as (u3 & Hp3 & Ht3 & _).
  pose proof (ready_within_transmits _ _ _ _ Ht3 Hr2) as Hr3.
  destruct (uart_putc_ok d polls c0 u3 Hr3 Hd) as (u4 & Hp4 & Ht4 & _).
  rewrite U3 in Ht1. rewrite U2 in Ht2. rewrite U1 in Ht3. rewrite U0 in Ht4.
  assert (Hloop : hex16_loop polls 5 12 value u0 = Some u4).
  { cbn [hex16_loop]. change (12 >=? 0) with true. cbv iota.
    rewrite E3. fold c3. rewrite Hp1. cbn [mbind option_bind].
    change (12 - 4 >=? 0) with true. cbv iota. change (12 - 4) with 8.
    rewrite E2. fold c2. rewrite Hp2. cbn [mbind option_bind].
    change (8 - 4 >=? 0) with true. cbv iota. change (8 - 4) with 4.
    rewrite E1. fold c1. rewrite Hp3. cbn [mbind option_bind].
    change (4 - 4 >=? 0) with true. cbv iota. change (4 - 4) with 0.
    rewrite E0. fold c0. rewrite Hp4. cbn [mbind option_bind].
    reflexivity. }
  exists u4, [c3; c2; c1; c0]. split; [exact Hloop |].
  pose proof (transmits_trans _ _ _ _ _ Ht0
               (transmits_trans _ _ _ _ _ Ht1
                 (transmits_trans _ _ _ _ _ Ht2
                   (transmits_trans _ _ _ _ _ Ht3 Ht4)))) as [Hsetup Hdata].
  split; [exact Hdata |]. split; [reflexivity |]. split.
  { repeat (constructor; [apply list_elem_of_In; assumption |]). constructor. }
  split; [| exact Hsetup].
  unfold hex_value. cbn [fold_left]. rewrite V3, V2, V1, V0.
  rewrite <- (hex16_nibbles value Hv) at 5. ring.
Qed.

Lemma uart_print_hex16_sends_hex_witness :
  exists u' l,
    uart_print_hex16 3 0x08FF slow_uart = Some u'
    /\ UDR0 u' = UDR0 slow_uart ++ [48; 120] ++ l
    /\ length l = 4%nat
    /\ Forall (fun c => c ∈ Literal.hex_digits) l
    /\ hex_value l = 0x08FF
    /\ same_uart_setup slow_uart u'.
Proof.
  apply (uart_print_hex16_sends_hex 3 3 0x08FF slow_uart).
  - exact slow_uart_ready.
  - lia.
  - unfold is_u16. lia.
Defined.

(** What goes out for [RAMEND]: the characters of ["0x08FF"]. *)
Example uart_print_hex16_example :
  (UDR0 <$> uart_print_hex16 1 0x08FF idle_uart) = Some [48; 120; 48; 56; 70; 70].
Proof. vm_compute. reflexivity. Qed.

(** [uart_newline] sends carriage return, then line feed. *)
Lemma uart_newline_sends_crlf d polls u :
  ready_within d u -> (d <= polls)%nat ->
  exists u', uart_newline polls u = Some u' /\ UDR0 u' = UDR0 u ++ [13; 10].
Proof.
  intros Hr Hd. unfold uart_newline.
  destruct (uart_putc_ok d polls 13 u Hr Hd) as (u1 & Hp1 & Ht1 & _).
  destruct (uart_putc_ok d polls 10 u1 (ready_within_transmits _ _ _ _ Ht1 Hr) Hd)
    as (u2 & Hp2 & Ht2 & _).
  exists u2. rewrite Hp1. simpl. split; [exact Hp2 |].
  destruct (transmits_trans _ _ _ _ _ Ht1 Ht2) as [_ Hdata]. exact Hdata.
Qed.

(** * The scan as a search *)

(** X29.  With the heap end inside SRAM, [scan_stack_usage] returns
    [RAMEND - q] where [q] is the first address at or above the heap end
    whose byte is not the sentinel, or [RAMEND] when every byte below
    [RAMEND] is a sentinel; the byte at [RAMEND] itself is never
    decisive.  So an untouched sentinel zone reads as usage 0 and a
    non-sentinel byte right at the heap end reads as the full distance
    [RAMEND - heap_end]. *)
Theorem scan_finds_first_non_sentinel (heap_start : Z) (s : state) :
  0 <= heap_end heap_start s <= RAMEND ->
  let q := RAMEND - scan_stack_usage heap_start s in
  first_stop (sram s) (heap_end heap_start s) q
  /\ ((forall a, heap_end heap_start s <= a < RAMEND -> sram s a = STACK_SENTINEL) ->
      scan_stack_usage heap_start s = 0)
  /\ (heap_end heap_start s < RAMEND ->
      sram s (heap_end heap_start s) <> STACK_SENTINEL ->
      scan_stack_usage heap_start s = RAMEND - heap_end heap_start s).
Proof.
  intros Hhe. cbv zeta. rewrite scan_usage_of_stop by exact Hhe.
  replace (RAMEND - (RAMEND - scan_stop heap_start s)) with (scan_stop heap_start s) by lia.
  pose proof (scan_stop_first_stop heap_start s ltac:(lia)) as Hstop.
  split; [exact Hstop |]. split.
  - intros Hall. f_equal.
    assert (Heq : scan_stop heap_start s = RAMEND); [| lia].
    apply (first_stop_unique (sram s) (heap_end heap_start s)); [exact Hstop |].
    split; [lia |]. split; [exact Hall | left; reflexivity].
  - intros Hlt Hne. f_equal.
    apply (first_stop_unique (sram s) (heap_end heap_start s)); [exact Hstop |].
    split; [lia |]. split; [intros a Ha; lia | right; exact Hne].
Qed.

Lemma scan_finds_first_non_sentinel_witness :
  let q := RAMEND - scan_stack_usage 0x050F armed in
  first_stop (sram armed) (heap_end 0x050F armed) q
  /\ ((forall a, heap_end 0x050F armed <= a < RAMEND -> sram armed a = STACK_SENTINEL) ->
      scan_stack_usage 0x050F armed = 0)
  /\ (heap_end 0x050F armed < RAMEND ->
      sram armed (heap_end 0x050F armed) <> STACK_SENTINEL ->
      scan_stack_usage 0x050F armed = RAMEND - heap_end 0x050F armed).
Proof.
  apply (scan_finds_first_non_sentinel 0x050F armed).
  vm_compute. split; discriminate.
Defined.
